(** * The answer comparison service of [api_server.py]

    A shallow embedding of the request and response models, of the mock
    evaluator [evaluate_answer_with_ai], of the two handlers
    [compare_answers] and [evaluate_single_answer] and of the informational
    routes, followed by the properties of the ranking, of the aggregates, of
    the error paths, of the scores and of what a run takes from the process
    state.

    Conventions of the embedding:
    - a Python [float] is an exact rational ([Q]); rounding is not modelled;
    - a Python [str] is a [string], one character per code point;
    - a [dict] keyed by strings is a [gmap string _];
    - the process state the handlers read (the [random] generator, [uuid],
      the clock) is a record of tapes, threaded through a state and
      exception monad. *)

From Stdlib Require Import QArith Qabs Sorted Lqa.
From stdpp Require Import gmap strings list pretty.

Local Open Scope string_scope.
Local Open Scope Q_scope.

(** ** Python primitives *)

Module Py.

(** The exceptions that occur.  [str e] is what [str(e)] gives; the message
    of a [ValidationError] stands for the one pydantic composes, and no
    statement below depends on its wording. *)
Inductive exn :=
  | ZeroDivisionError
  | ValueError (msg : string)
  | IndexError (msg : string)
  | RuntimeError (msg : string)
  | ValidationError (msg : string)
  | HTTPException (status_code : nat) (detail : string).

Definition str (e : exn) : string :=
  match e with
  | ZeroDivisionError => "division by zero"
  | ValueError msg | IndexError msg | RuntimeError msg
  | ValidationError msg => msg
  | HTTPException status_code detail => pretty status_code ++ ": " ++ detail
  end.

Inductive result (A : Type) :=
  | Ok (a : A)
  | Raised (e : exn).
Arguments Ok {A} a.
Arguments Raised {A} e.

(** What a handler reads from its process: the draws of [random.random()],
    the draws of the generator's [_randbelow], the identifiers [uuid.uuid4()]
    hands out and the readings of the clock.  An exhausted tape keeps
    answering with a fixed value.  The tapes are arbitrary: nothing below
    assumes that a draw of [random()] lies between 0 and 1. *)
Record World := mkWorld {
  random_tape : list Q;
  randbelow_tape : list nat;
  uuid_tape : list string;
  clock_tape : list Q
}.

Definition M (A : Type) : Type := World -> result A * World.

Definition ret {A} (a : A) : M A := fun w => (Ok a, w).

Definition raise {A} (e : exn) : M A := fun w => (Raised e, w).

Definition bind {A B} (m : M A) (k : A -> M B) : M B :=
  fun w =>
    match m w with
    | (Ok a, w') => k a w'
    | (Raised e, w') => (Raised e, w')
    end.

(** [try: m except Exception as e: h e] *)
Definition try_except {A} (m : M A) (h : exn -> M A) : M A :=
  fun w =>
    match m w with
    | (Ok a, w') => (Ok a, w')
    | (Raised e, w') => h e w'
    end.

Definition lift {A} (r : result A) : M A := fun w => (r, w).

#[global] Instance M_ret : MRet M := @ret.
#[global] Instance M_bind : MBind M := fun A B k m => bind m k.

(** [for i, x in enumerate(l, start): acc = body i x acc] *)
Fixpoint for_enumerate {A St} (start : nat) (l : list A)
    (body : nat -> A -> St -> M St) (acc : St) : M St :=
  match l with
  | [] => ret acc
  | x :: l' =>
      acc' ← body start x acc; for_enumerate (S start) l' body acc'
  end.

(** [for x in l: acc = body x acc] *)
Fixpoint for_each {A St} (l : list A) (body : A -> St -> M St) (acc : St)
    : M St :=
  match l with
  | [] => ret acc
  | x :: l' => acc' ← body x acc; for_each l' body acc'
  end.

(** *** Numbers *)

Definition Qlt_bool (x y : Q) : bool := negb (Qle_bool y x).

(** [sum(xs)]: a left fold that starts from 0. *)
Definition sum (xs : list Q) : Q := foldl Qplus 0 xs.

(** [x / n] for an integer [n]; dividing by zero raises.  The quotient is
    exact: the rounding of the binary division is not modelled, so no
    statement below relies on a sum or a quotient hitting a decimal value
    exactly. *)
Definition truediv (x : Q) (n : nat) : M Q :=
  match n with
  | O => raise ZeroDivisionError
  | _ => ret (x / inject_Z (Z.of_nat n))
  end.

(** [min(x, y)]: the first argument unless the second is smaller. *)
Definition min (x y : Q) : Q := if Qlt_bool y x then y else x.

(** Nearest integer of a non-negative rational, ties to even. *)
Definition round_half_even (x : Q) : Z :=
  let n := Qnum x in
  let d := Z.pos (Qden x) in
  let q := (n / d)%Z in
  let r := (n mod d)%Z in
  match (2 * r ?= d)%Z with
  | Lt => q
  | Gt => (q + 1)%Z
  | Eq => if Z.even q then q else (q + 1)%Z
  end.

Definition two_digits (n : Z) : string :=
  (if (n <? 10)%Z then "0" else "") ++ pretty n.

(** [f"{x:.2f}"] *)
Definition format_2f (x : Q) : string :=
  let n := round_half_even (Qabs x * 100) in
  (if Qlt_bool x 0 then "-" else "")
    ++ pretty (n / 100)%Z ++ "." ++ two_digits (n mod 100)%Z.

(** *** Strings *)

(** [sub in s] *)
Fixpoint contains (sub s : string) : bool :=
  String.prefix sub s ||
  match s with
  | EmptyString => false
  | String _ s' => contains sub s'
  end.

(** [x or y] on an optional string: [None] and [""] are falsy. *)
Definition or_else (x : option string) (y : string) : string :=
  match x with
  | None | Some "" => y
  | Some s => s
  end.

(** *** The [random], [uuid] and [time] modules *)

Definition random_random : M Q := fun w =>
  match random_tape w with
  | [] => (Ok 0, w)
  | x :: t => (Ok x, mkWorld t (randbelow_tape w) (uuid_tape w) (clock_tape w))
  end.

(** [random.uniform(a, b)] is [a + (b - a) * random()]. *)
Definition random_uniform (a b : Q) : M Q :=
  r ← random_random; ret (a + (b - a) * r).

(** The generator's [_randbelow(n)]: an integer below [n]. *)
Definition randbelow (n : nat) : M nat := fun w =>
  match randbelow_tape w with
  | [] => (Ok O, w)
  | k :: t => (Ok (k mod n)%nat,
               mkWorld (random_tape w) t (uuid_tape w) (clock_tape w))
  end.

(** The pool branch of [random.sample], the one taken for a population of
    at most 21 elements: [k] rounds, round [i] draws [j] below [n - i],
    takes [pool[j]] and moves the last live element into slot [j]. *)
Fixpoint sample_rounds {A} (n i k : nat) (pool : list A) (acc : list A)
    : M (list A) :=
  match k with
  | O => ret acc
  | S k' =>
      j ← randbelow (n - i);
      match pool !! j, pool !! (n - i - 1)%nat with
      | Some x, Some y =>
          sample_rounds n (S i) k' (<[j := y]> pool) (acc ++ [x])%list
      | _, _ => raise (IndexError "list index out of range")
      end
  end.

Definition random_sample {A} (population : list A) (k : nat) : M (list A) :=
  let n := length population in
  if (n <? k)%nat
  then raise (ValueError "Sample larger than population or is negative")
  else sample_rounds n 0 k population [].

Definition uuid4 : M string := fun w =>
  match uuid_tape w with
  | [] => (Ok "", w)
  | u :: t => (Ok u, mkWorld (random_tape w) (randbelow_tape w) t (clock_tape w))
  end.

Definition time_time : M Q := fun w =>
  match clock_tape w with
  | [] => (Ok 0, w)
  | c :: t => (Ok c, mkWorld (random_tape w) (randbelow_tape w) (uuid_tape w) t)
  end.

(** [datetime.now()], as seconds on the same clock. *)
Definition datetime_now : M Q := time_time.

End Py.

Import Py.

(** ** Request and response models *)

Module AnswerInput.
Record t := mk {
  content : string;
  id : option string
}.
End AnswerInput.

Module ComparisonRequest.
Record t := mk {
  problem : string;
  answers : list AnswerInput.t;
  evaluation_type : option string;
  context : option string
}.

(** The default of [evaluation_type], used when the field is left out. *)
Definition default_evaluation_type : option string := Some "comprehensive".

(** The validating constructor: [answers] carries [min_items=2] and
    [max_items=10]; [problem] is any string, [evaluation_type] and [context]
    are optional strings. *)
Definition new (problem : string) (answers : list AnswerInput.t)
    (evaluation_type context : option string) : result t :=
  if (length answers <? 2)%nat then
    Raised (ValidationError "answers: ensure this value has at least 2 items")
  else if (10 <? length answers)%nat then
    Raised (ValidationError "answers: ensure this value has at most 10 items")
  else Ok (mk problem answers evaluation_type context).
End ComparisonRequest.

Module ArchetypeScore.
Record t := mk {
  archetype : string;
  score : Q;
  explanation : string
}.
End ArchetypeScore.

Module EvaluationResult.
Record t := mk {
  answer_id : string;
  content : string;
  overall_score : Q;
  ranking_position : nat;
  confidence : Q;
  archetype_scores : list ArchetypeScore.t;
  strengths : list string;
  weaknesses : list string;
  improvement_suggestions : list string
}.

(** [result.ranking_position = n] *)
Definition set_ranking_position (n : nat) (r : t) : t :=
  mk (answer_id r) (content r) (overall_score r) n (confidence r)
     (archetype_scores r) (strengths r) (weaknesses r)
     (improvement_suggestions r).
End EvaluationResult.

Module ComparisonResponse.
Record t := mk {
  request_id : string;
  problem : string;
  evaluation_type : string;
  timestamp : Q;
  processing_time : Q;
  results : list EvaluationResult.t;
  best_answer : string;
  confidence_summary : gmap string Q;
  archetype_summary : gmap string Q
}.

(** The validating constructor: [evaluation_type] and [best_answer] are
    declared [str], so [None] is refused for either. *)
Definition new (request_id problem : string) (evaluation_type : option string)
    (timestamp processing_time : Q) (results : list EvaluationResult.t)
    (best_answer : option string)
    (confidence_summary archetype_summary : gmap string Q) : result t :=
  match evaluation_type, best_answer with
  | Some et, Some ba =>
      Ok (mk request_id problem et timestamp processing_time results ba
             confidence_summary archetype_summary)
  | None, Some _ =>
      Raised (ValidationError "evaluation_type: none is not an allowed value")
  | Some _, None =>
      Raised (ValidationError "best_answer: none is not an allowed value")
  | None, None =>
      Raised (ValidationError
        "evaluation_type: none is not an allowed value; best_answer: none is not an allowed value")
  end.
End ComparisonResponse.

(** The dictionary [evaluate_answer_with_ai] returns. *)
Module AiResult.
Record t := mk {
  overall_score : Q;
  archetype_scores : list ArchetypeScore.t;
  strengths : list string;
  weaknesses : list string;
  improvement_suggestions : list string
}.
End AiResult.

(** The dictionary [evaluate_single_answer] returns. *)
Module SingleEvaluation.
Record t := mk {
  request_id : string;
  problem : string;
  answer : string;
  evaluation : EvaluationResult.t;
  timestamp : Q;
  processing_time : Q
}.
End SingleEvaluation.

(** ** The mock evaluation *)

Definition Evaluator : Type :=
  string -> string -> option string -> M AiResult.t.

Definition suggestions : list string := [
  "Add more specific examples";
  "Include counterarguments or alternative views";
  "Strengthen logical connections";
  "Provide more context or background"
].

Definition evaluate_answer_with_ai : Evaluator := fun problem answer context =>
  base_score ← random_uniform 0.6 0.9;
  let base_score :=
    if (100 <? String.length answer)%nat then base_score + 0.05
    else base_score in
  let base_score :=
    if contains "?" answer || contains "because" answer then base_score + 0.03
    else base_score in
  u_clarity ← random_uniform (-0.1) 0.1;
  u_accuracy ← random_uniform (-0.05) 0.05;
  u_completeness ← random_uniform (-0.08) 0.08;
  u_adaptability ← random_uniform (-0.05) 0.05;
  u_structure ← random_uniform (-0.07) 0.07;
  let archetype_scores := [
    ArchetypeScore.mk "clarity" (Py.min (base_score + u_clarity) 1.0)
      "Clear and well-structured explanation";
    ArchetypeScore.mk "accuracy" (Py.min (base_score + u_accuracy) 1.0)
      "Factually sound with good reasoning";
    ArchetypeScore.mk "completeness" (Py.min (base_score + u_completeness) 1.0)
      "Covers key aspects of the problem";
    ArchetypeScore.mk "adaptability" (Py.min (base_score + u_adaptability) 1.0)
      "Applies well to different contexts";
    ArchetypeScore.mk "structure" (Py.min (base_score + u_structure) 1.0)
      "Well-organized and logical flow"
  ] in
  overall_score ←
    truediv (Py.sum (ArchetypeScore.score <$> archetype_scores))
            (length archetype_scores);
  let strengths :=
    (fun s => "Strong " ++ ArchetypeScore.archetype s
                ++ " (" ++ format_2f (ArchetypeScore.score s) ++ ")")
    <$> filter (fun s => Qlt_bool 0.7 (ArchetypeScore.score s) = true)
          archetype_scores in
  let weaknesses :=
    (fun s => "Could improve " ++ ArchetypeScore.archetype s
                ++ " (" ++ format_2f (ArchetypeScore.score s) ++ ")")
    <$> filter (fun s => Qlt_bool (ArchetypeScore.score s) 0.6 = true)
          archetype_scores in
  sampled ← random_sample suggestions 2;
  mret (AiResult.mk overall_score archetype_scores strengths weaknesses sampled).

(** ** The comparison handler *)

(** [list.sort(key=key, reverse=True)]: the sort is stable, and with
    [reverse=True] elements of equal key still keep their original order.
    That determines the result ([sort_desc_unique] below), which is computed
    here by insertion: [insert_desc] puts [x] in front of the first element
    whose key is not above its own. *)
Fixpoint insert_desc {A} (key : A -> Q) (x : A) (l : list A) : list A :=
  match l with
  | [] => [x]
  | y :: l' =>
      if Qlt_bool (key x) (key y) then y :: insert_desc key x l'
      else x :: y :: l'
  end.

Definition sort_desc {A} (key : A -> Q) (l : list A) : list A :=
  foldr (insert_desc key) [] l.

(** The first summary loop: the scores of every archetype, in the order met. *)
Definition collect_scores (evaluation_results : list EvaluationResult.t)
    : gmap string (list Q) :=
  foldl (fun (summary : gmap string (list Q)) result =>
    foldl (fun (summary : gmap string (list Q)) score =>
      let archetype := ArchetypeScore.archetype score in
      let summary :=
        match summary !! archetype with
        | None => <[archetype := []]> summary
        | Some _ => summary
        end in
      alter (fun scores => (scores ++ [ArchetypeScore.score score])%list)
            archetype summary)
      summary (EvaluationResult.archetype_scores result))
    ∅ evaluation_results.

(** The second summary loop: every list of scores is replaced by its mean.
    The source overwrites the entries of the one dictionary; here the means
    go to a second map, the values changing type.  A [gmap] keeps no order of
    insertion, and nothing below depends on the order of the keys. *)
Definition average_scores (collected : gmap string (list Q))
    : M (gmap string Q) :=
  for_each (map_to_list collected)
    (fun '(archetype, scores) summary =>
       mean ← truediv (Py.sum scores) (length scores);
       mret (<[archetype := mean]> summary))
    ∅.

(** The handler calls the module-level name [evaluate_answer_with_ai]; the
    function bound to that name is a parameter here, so that statements can
    speak of the handler with another evaluator in its place. *)
Definition compare_answers_with (evaluator : Evaluator)
    (request : ComparisonRequest.t) : M ComparisonResponse.t :=
  request_id ← uuid4;
  start_time ← time_time;
  try_except
    (evaluation_results ←
       for_enumerate 0 (ComparisonRequest.answers request)
         (fun i answer evaluation_results =>
            ai_result ← evaluator (ComparisonRequest.problem request)
                           (AnswerInput.content answer)
                           (ComparisonRequest.context request);
            let evaluation_result :=
              EvaluationResult.mk
                (or_else (AnswerInput.id answer) ("answer_" ++ pretty i))
                (AnswerInput.content answer)
                (AiResult.overall_score ai_result)
                0
                0.728
                (AiResult.archetype_scores ai_result)
                (AiResult.strengths ai_result)
                (AiResult.weaknesses ai_result)
                (AiResult.improvement_suggestions ai_result) in
            mret (evaluation_results ++ [evaluation_result])%list)
         [];
     let evaluation_results :=
       sort_desc EvaluationResult.overall_score evaluation_results in
     let evaluation_results :=
       imap (fun i result =>
               EvaluationResult.set_ranking_position (i + 1) result)
            evaluation_results in
     let best_answer :=
       match evaluation_results with
       | result :: _ => Some (EvaluationResult.answer_id result)
       | [] => None
       end in
     average_confidence ←
       truediv (Py.sum (EvaluationResult.confidence <$> evaluation_results))
               (length evaluation_results);
     let confidence_summary : gmap string Q :=
       <["evaluation_reliability" := 0.724]>
         (<["ranking_confidence" := 0.728]>
            (<["average_confidence" := average_confidence]> ∅)) in
     archetype_summary ← average_scores (collect_scores evaluation_results);
     end_time ← time_time;
     let processing_time := end_time - start_time in
     timestamp ← datetime_now;
     lift (ComparisonResponse.new request_id
             (ComparisonRequest.problem request)
             (ComparisonRequest.evaluation_type request)
             timestamp processing_time evaluation_results best_answer
             confidence_summary archetype_summary))
    (fun e => raise (HTTPException 500 ("Evaluation failed: " ++ str e))).

Definition compare_answers : ComparisonRequest.t -> M ComparisonResponse.t :=
  compare_answers_with evaluate_answer_with_ai.

(** The route [POST /compare]: the body is validated into a
    [ComparisonRequest] first, and the handler runs only on a valid one. *)
Definition post_compare (problem : string) (answers : list AnswerInput.t)
    (evaluation_type context : option string) : M ComparisonResponse.t :=
  request ← lift (ComparisonRequest.new problem answers evaluation_type context);
  compare_answers request.

(** ** The single answer handler *)

Definition evaluate_single_answer (problem answer : string)
    (context : option string) : M SingleEvaluation.t :=
  request_id ← uuid4;
  try_except
    (comparison_request ←
       lift (ComparisonRequest.new problem
               [AnswerInput.mk answer (Some "single_answer")]
               (Some "quick") context);
     result ← compare_answers comparison_request;
     match ComparisonResponse.results result with
     | evaluation :: _ =>
         mret (SingleEvaluation.mk request_id problem answer evaluation
                 (ComparisonResponse.timestamp result)
                 (ComparisonResponse.processing_time result))
     | [] => raise (HTTPException 500 "Evaluation failed")
     end)
    (fun e => raise (HTTPException 500 ("Evaluation failed: " ++ str e))).

(** ** The informational routes *)

(** The value of a dictionary literal the routes return as it is. *)
#[warnings="-register-all"]
Inductive json :=
  | JString (s : string)
  | JInt (n : Z)
  | JFloat (x : Q)
  | JBool (b : bool)
  | JList (items : list json)
  | JDict (entries : list (string * json)).

Module HealthResponse.
Record t := mk {
  status : string;
  ai_system_ready : bool;
  version : string;
  uptime : Q;
  deployment_type : string
}.
End HealthResponse.

Definition health_check : M HealthResponse.t :=
  uptime ← time_time;
  mret (HealthResponse.mk "healthy" true "1.0.0" uptime "cloud_optimized").

Definition get_system_info : json :=
  JDict [
    ("system_name", JString "AI Reasoning & Evaluation Platform");
    ("version", JString "1.0.0");
    ("description", JString
       "Advanced AI system for evaluating and ranking multiple answers using curriculum learning and archetype-based reasoning");
    ("deployment_type", JString "cloud_optimized");
    ("capabilities", JList [
       JString "Multi-answer comparison";
       JString "Archetype-based evaluation";
       JString "Confidence scoring";
       JString "Detailed feedback";
       JString "Ranking with explanations"]);
    ("performance_metrics", JDict [
       ("ranking_confidence", JFloat 0.728);
       ("practical_usability", JFloat 0.724);
       ("success_rate", JFloat 1.0);
       ("supported_archetypes", JInt 5)]);
    ("api_endpoints", JDict [
       ("health", JString "/health");
       ("compare", JString "/compare");
       ("evaluate", JString "/evaluate");
       ("docs", JString "/docs")])
  ].

Definition get_usage_stats : json :=
  JDict [
    ("total_comparisons", JInt 42);
    ("average_processing_time", JFloat 2.3);
    ("success_rate", JFloat 0.95);
    ("most_common_archetypes", JList [
       JString "clarity"; JString "accuracy"; JString "completeness"]);
    ("deployment_type", JString "cloud_optimized")
  ].

(** * Vocabulary of the statements *)

(** ** Means, positions and order *)

Definition mean (xs : list Q) : Q := Py.sum xs / inject_Z (Z.of_nat (length xs)).

(** [enumerate(l, start)] *)
Fixpoint enumerate_from {A} (start : nat) (l : list A) : list (nat * A) :=
  match l with
  | [] => []
  | x :: l' => (start, x) :: enumerate_from (S start) l'
  end.

(** In the sorted list of elements tagged with their input position, [p] may
    stand before [q]: a higher key, or the same key and an earlier position. *)
Definition before {A} (key : A -> Q) (p q : nat * A) : Prop :=
  key q.2 < key p.2 \/ (key q.2 == key p.2 /\ (p.1 < q.1)%nat).

(** ** The parts of one evaluation *)

(** [evaluate_answer_with_ai] does two things in a row: it scores the answer
    on the archetypes, then derives the mean, the feedback and the
    suggestions from the scores.  The two halves are named here, the second
    for any scorer; [evaluate_answer_with_ai_eq] below puts them together
    again. *)
Definition Scorer : Type :=
  string -> string -> option string -> M (list ArchetypeScore.t).

(** Lines 83 to 118: the base score and the five archetype scores, each
    capped at 1.0 by [min]. *)
Definition mock_scorer : Scorer := fun problem answer context =>
  base_score ← random_uniform 0.6 0.9;
  let base_score :=
    if (100 <? String.length answer)%nat then base_score + 0.05
    else base_score in
  let base_score :=
    if contains "?" answer || contains "because" answer then base_score + 0.03
    else base_score in
  u_clarity ← random_uniform (-0.1) 0.1;
  u_accuracy ← random_uniform (-0.05) 0.05;
  u_completeness ← random_uniform (-0.08) 0.08;
  u_adaptability ← random_uniform (-0.05) 0.05;
  u_structure ← random_uniform (-0.07) 0.07;
  mret [
    ArchetypeScore.mk "clarity" (Py.min (base_score + u_clarity) 1.0)
      "Clear and well-structured explanation";
    ArchetypeScore.mk "accuracy" (Py.min (base_score + u_accuracy) 1.0)
      "Factually sound with good reasoning";
    ArchetypeScore.mk "completeness" (Py.min (base_score + u_completeness) 1.0)
      "Covers key aspects of the problem";
    ArchetypeScore.mk "adaptability" (Py.min (base_score + u_adaptability) 1.0)
      "Applies well to different contexts";
    ArchetypeScore.mk "structure" (Py.min (base_score + u_structure) 1.0)
      "Well-organized and logical flow"
  ].

Definition archetypes : list string :=
  ["clarity"; "accuracy"; "completeness"; "adaptability"; "structure"].

Definition strengths_of (l : list ArchetypeScore.t) : list string :=
  (fun s => "Strong " ++ ArchetypeScore.archetype s
              ++ " (" ++ format_2f (ArchetypeScore.score s) ++ ")")
  <$> filter (fun s => Qlt_bool 0.7 (ArchetypeScore.score s) = true) l.

Definition weaknesses_of (l : list ArchetypeScore.t) : list string :=
  (fun s => "Could improve " ++ ArchetypeScore.archetype s
              ++ " (" ++ format_2f (ArchetypeScore.score s) ++ ")")
  <$> filter (fun s => Qlt_bool (ArchetypeScore.score s) 0.6 = true) l.

(** Lines 120 to 142, for the archetype scores a scorer produced. *)
Definition evaluate_answer_with (scorer : Scorer) : Evaluator :=
  fun problem answer context =>
  archetype_scores ← scorer problem answer context;
  overall_score ←
    truediv (Py.sum (ArchetypeScore.score <$> archetype_scores))
            (length archetype_scores);
  sampled ← random_sample suggestions 2;
  mret (AiResult.mk overall_score archetype_scores
          (strengths_of archetype_scores) (weaknesses_of archetype_scores)
          sampled).

Definition two_suggestions (l : list string) : Prop :=
  exists x y, l = [x; y] /\ x ≠ y /\ x ∈ suggestions /\ y ∈ suggestions.

(** ** The parts of the comparison handler *)

(** [compare_answers_with] is one function, as in the source; these are its
    parts, named so that lemmas can speak of them.  [compare_answers_with_eq]
    and [collect_scores_eq] below put them together again. *)

(** The result built in the loop for the answer at position [i]. *)
Definition make_result (i : nat) (answer : AnswerInput.t)
    (ai_result : AiResult.t) : EvaluationResult.t :=
  EvaluationResult.mk
    (or_else (AnswerInput.id answer) ("answer_" ++ pretty i))
    (AnswerInput.content answer)
    (AiResult.overall_score ai_result)
    0
    0.728
    (AiResult.archetype_scores ai_result)
    (AiResult.strengths ai_result)
    (AiResult.weaknesses ai_result)
    (AiResult.improvement_suggestions ai_result).

Definition evaluation_step (evaluator : Evaluator)
    (request : ComparisonRequest.t) (i : nat) (answer : AnswerInput.t)
    (evaluation_results : list EvaluationResult.t)
    : M (list EvaluationResult.t) :=
  ai_result ← evaluator (ComparisonRequest.problem request)
                 (AnswerInput.content answer)
                 (ComparisonRequest.context request);
  mret (evaluation_results ++ [make_result i answer ai_result])%list.

(** Sorting and numbering. *)
Definition ranked (evaluation_results : list EvaluationResult.t)
    : list EvaluationResult.t :=
  imap (fun i result => EvaluationResult.set_ranking_position (i + 1) result)
       (sort_desc EvaluationResult.overall_score evaluation_results).

Definition collect_step (summary : gmap string (list Q))
    (score : ArchetypeScore.t) : gmap string (list Q) :=
  let archetype := ArchetypeScore.archetype score in
  let summary :=
    match summary !! archetype with
    | None => <[archetype := []]> summary
    | Some _ => summary
    end in
  alter (fun scores => (scores ++ [ArchetypeScore.score score])%list)
        archetype summary.

(** What follows the loop inside the [try] block. *)
Definition finish (request : ComparisonRequest.t) (request_id : string)
    (start_time : Q) (evaluation_results : list EvaluationResult.t)
    : M ComparisonResponse.t :=
  let evaluation_results := ranked evaluation_results in
  let best_answer :=
    match evaluation_results with
    | result :: _ => Some (EvaluationResult.answer_id result)
    | [] => None
    end in
  average_confidence ←
    truediv (Py.sum (EvaluationResult.confidence <$> evaluation_results))
            (length evaluation_results);
  let confidence_summary : gmap string Q :=
    <["evaluation_reliability" := 0.724]>
      (<["ranking_confidence" := 0.728]>
         (<["average_confidence" := average_confidence]> ∅)) in
  archetype_summary ← average_scores (collect_scores evaluation_results);
  end_time ← time_time;
  let processing_time := end_time - start_time in
  timestamp ← datetime_now;
  lift (ComparisonResponse.new request_id
          (ComparisonRequest.problem request)
          (ComparisonRequest.evaluation_type request)
          timestamp processing_time evaluation_results best_answer
          confidence_summary archetype_summary).

(** [r] is what the loop builds at position [ia.1] for the answer [ia.2],
    from some successful call of the evaluator on its content. *)
Definition built (evaluator : Evaluator) (request : ComparisonRequest.t)
    (ia : nat * AnswerInput.t) (r : EvaluationResult.t) : Prop :=
  exists w1 w2 ai_result,
    evaluator (ComparisonRequest.problem request) (AnswerInput.content ia.2)
              (ComparisonRequest.context request) w1 = (Ok ai_result, w2) /\
    r = make_result ia.1 ia.2 ai_result.

(** ** The archetype summary *)

(** The scores one result holds for archetype [a], and those of a whole list
    of results, in order. *)
Definition scores_for (a : string) (r : EvaluationResult.t) : list Q :=
  ArchetypeScore.score
    <$> filter (fun s => ArchetypeScore.archetype s = a)
          (EvaluationResult.archetype_scores r).

Definition all_scores_for (a : string) (rs : list EvaluationResult.t) : list Q :=
  concat (scores_for a <$> rs).

Definition nonempty (l : list Q) : option (list Q) :=
  match l with
  | [] => None
  | _ => Some l
  end.

(** The score a result holds for archetype [a], if it has one. *)
Definition score_of (a : string) (r : EvaluationResult.t) : option Q :=
  ArchetypeScore.score
    <$> head (filter (fun s => ArchetypeScore.archetype s = a)
                     (EvaluationResult.archetype_scores r)).

Definition possesses (r : EvaluationResult.t) (a : string) : Prop :=
  a ∈ ArchetypeScore.archetype <$> EvaluationResult.archetype_scores r.

(** ** Runs that differ in the sampled suggestions only *)

(** A scorer that takes nothing from the process: its scores are a function
    of its arguments. *)
Definition pure_scorer
    (f : string -> string -> option string -> list ArchetypeScore.t) : Scorer :=
  fun problem answer context => mret (f problem answer context).

(** A result with its sampled suggestions left out. *)
Definition without_suggestions (r : EvaluationResult.t) : EvaluationResult.t :=
  EvaluationResult.mk
    (EvaluationResult.answer_id r) (EvaluationResult.content r)
    (EvaluationResult.overall_score r) (EvaluationResult.ranking_position r)
    (EvaluationResult.confidence r) (EvaluationResult.archetype_scores r)
    (EvaluationResult.strengths r) (EvaluationResult.weaknesses r) [].

(** What the loop builds for the answer at position [i] when the scores are
    the function [f] of the inputs, suggestions apart. *)
Definition pure_result (f : string -> string -> option string -> list ArchetypeScore.t)
    (request : ComparisonRequest.t) (ia : nat * AnswerInput.t)
    : EvaluationResult.t :=
  let l := f (ComparisonRequest.problem request) (AnswerInput.content ia.2)
             (ComparisonRequest.context request) in
  make_result ia.1 ia.2
    (AiResult.mk (mean (ArchetypeScore.score <$> l)) l
                 (strengths_of l) (weaknesses_of l) []).

(** ** Sample requests, process states and scorers *)

Definition gravity_answers : list AnswerInput.t := [
  AnswerInput.mk "Gravity pulls masses together because of spacetime curvature."
                 (Some "a");
  AnswerInput.mk "Gravity is a force." (Some "b")
].

Definition gravity_request : ComparisonRequest.t :=
  ComparisonRequest.mk "Explain gravity" gravity_answers
                       (Some "comprehensive") None.

Definition anonymous_request : ComparisonRequest.t :=
  ComparisonRequest.mk "Explain gravity"
    [AnswerInput.mk "Gravity is a force." None;
     AnswerInput.mk "Gravity pulls masses together." (Some "");
     AnswerInput.mk "Mass bends spacetime." (Some "c")]
    (Some "comprehensive") None.

Definition one_answer : list AnswerInput.t :=
  [AnswerInput.mk "Gravity is a force." (Some "b")].

Definition ten_answers : list AnswerInput.t :=
  replicate 10 (AnswerInput.mk "Gravity is a force." None).

Definition eleven_answers : list AnswerInput.t :=
  replicate 11 (AnswerInput.mk "Gravity is a force." None).

Definition world0 : World :=
  mkWorld [0.5; 0.5; 0.5; 0.5; 0.5; 0.5; 0.9; 0.99; 0.1; 0.2; 0.3; 0.4]
          [1; 2; 3; 0]%nat
          ["7d9f1c52-0000-4000-8000-000000000001";
           "7d9f1c52-0000-4000-8000-000000000002"]
          [10; 12; 13].

Definition world1 : World :=
  mkWorld [0.5; 0.5; 0.5; 0.5; 0.5; 0.5; 0.9; 0.99; 0.1; 0.2; 0.3; 0.4]
          [0; 0; 2; 1]%nat
          ["7d9f1c52-0000-4000-8000-000000000003"]
          [20; 21; 22].

(** A deterministic scorer: 0.5 on every archetype for the short answer and
    0.9 for any other. *)
Definition stub_scores (problem answer : string) (context : option string)
    : list ArchetypeScore.t :=
  (fun a => ArchetypeScore.mk a
              (if String.eqb answer "Gravity is a force." then 0.5 else 0.9)
              "stub")
  <$> archetypes.

Definition stub_scorer : Scorer := pure_scorer stub_scores.

(** A scorer that knows one archetype for the short answer and two for any
    other. *)
Definition uneven_scorer : Scorer := fun problem answer context =>
  mret (if String.eqb answer "Gravity is a force."
        then [ArchetypeScore.mk "clarity" 0.5 "stub"]
        else [ArchetypeScore.mk "clarity" 0.9 "stub";
              ArchetypeScore.mk "accuracy" 0.7 "stub"]).

(** A scorer that breaks its contract: one archetype instead of five, and a
    score of 1.5. *)
Definition out_of_range_scorer : Scorer := fun problem answer context =>
  mret [ArchetypeScore.mk "clarity" 1.5 "stub"].

(** An evaluator that fails on the short answer. *)
Definition failing_evaluator : Evaluator := fun problem answer context =>
  if String.eqb answer "Gravity is a force."
  then raise (RuntimeError "timeout")
  else evaluate_answer_with stub_scorer problem answer context.

(** ** The draws and the features of an answer *)

(** The draws of [random()] lie in the interval the generator promises. *)
Definition unit_draws (w : World) : Prop :=
  Forall (fun r => 0 <= r /\ r < 1) (random_tape w).

(** The two tests [evaluate_answer_with_ai] makes on the answer. *)
Definition long_answer (answer : string) : bool :=
  (100 <? String.length answer)%nat.

Definition explanatory (answer : string) : bool :=
  contains "?" answer || contains "because" answer.

(** The archetype scores that make neither a strength nor a weakness. *)
Definition dead_zone (l : list ArchetypeScore.t) : list ArchetypeScore.t :=
  filter (fun s => Qlt_bool 0.7 (ArchetypeScore.score s) = false /\
                   Qlt_bool (ArchetypeScore.score s) 0.6 = false) l.

(** The identifier a result carries for the answer at position [i]. *)
Definition effective_id (i : nat) (answer : AnswerInput.t) : string :=
  or_else (AnswerInput.id answer) ("answer_" ++ pretty i).

(** [d[key]] on a dictionary value. *)
Definition json_get (key : string) (j : json) : option json :=
  match j with
  | JDict entries => snd <$> List.find (fun kv => String.eqb kv.1 key) entries
  | _ => None
  end.

Definition long_text : string :=
  "Gravity is the mutual attraction of masses, which general relativity describes as the curvature of spacetime.".

(** ** The process state along a run *)

(** The process state after [n] draws of [random()], [m] draws of
    [_randbelow], [u] calls of [uuid4()] and [c] readings of the clock. *)
Definition consumed (n m u c : nat) (w : World) : World :=
  mkWorld (drop n (random_tape w)) (drop m (randbelow_tape w))
          (drop u (uuid_tape w)) (drop c (clock_tape w)).

(** The same generator state, with other identifiers to come and another
    clock. *)
Definition reframe (uuids : list string) (clock : list Q) (w : World) : World :=
  mkWorld (random_tape w) (randbelow_tape w) uuids clock.

(** A computation that neither reads nor advances the identifiers and the
    clock. *)
Definition framed {A} (m : M A) : Prop :=
  forall uuids clock w,
    m (reframe uuids clock w) = ((m w).1, reframe uuids clock (m w).2).

(** The [k]-th value [random()] will return. *)
Definition draw (k : nat) (w : World) : Q := nth k (random_tape w) 0.

(** The base score of an answer, for the first draw [r]: the value of
    [random.uniform(0.6, 0.9)] and the two bonuses. *)
Definition base_score_of (answer : string) (r : Q) : Q :=
  let base_score := 0.6 + (0.9 - 0.6) * r in
  let base_score :=
    if (100 <? String.length answer)%nat then base_score + 0.05
    else base_score in
  if contains "?" answer || contains "because" answer then base_score + 0.03
  else base_score.

(** The five scores of an answer, for the six draws that make them. *)
Definition scores_of_draws (answer : string) (w : World)
    : list ArchetypeScore.t :=
  let base_score := base_score_of answer (draw 0 w) in
  [ArchetypeScore.mk "clarity"
     (Py.min (base_score + (-0.1 + (0.1 - -0.1) * draw 1 w)) 1.0)
     "Clear and well-structured explanation";
   ArchetypeScore.mk "accuracy"
     (Py.min (base_score + (-0.05 + (0.05 - -0.05) * draw 2 w)) 1.0)
     "Factually sound with good reasoning";
   ArchetypeScore.mk "completeness"
     (Py.min (base_score + (-0.08 + (0.08 - -0.08) * draw 3 w)) 1.0)
     "Covers key aspects of the problem";
   ArchetypeScore.mk "adaptability"
     (Py.min (base_score + (-0.05 + (0.05 - -0.05) * draw 4 w)) 1.0)
     "Applies well to different contexts";
   ArchetypeScore.mk "structure"
     (Py.min (base_score + (-0.07 + (0.07 - -0.07) * draw 5 w)) 1.0)
     "Well-organized and logical flow"].

(** The [ComparisonResponse(...)] call at the end of [compare_answers],
    for the results collected by the loop and the values read from the
    process state. *)
Definition response_of (request : ComparisonRequest.t) (request_id : string)
    (start_time end_time timestamp : Q) (evaluated : list EvaluationResult.t)
    : result ComparisonResponse.t :=
  ComparisonResponse.new request_id
    (ComparisonRequest.problem request)
    (ComparisonRequest.evaluation_type request)
    timestamp (end_time - start_time) (ranked evaluated)
    (head (EvaluationResult.answer_id <$> ranked evaluated))
    (<["evaluation_reliability" := 0.724]>
       (<["ranking_confidence" := 0.728]>
          (<["average_confidence" :=
               mean (EvaluationResult.confidence <$> ranked evaluated)]> ∅)))
    (mean <$> collect_scores (ranked evaluated)).

(** The [except Exception] clause of [compare_answers], on an outcome. *)
Definition reported {A} (r : result A) : result A :=
  match r with
  | Ok a => Ok a
  | Raised e => Raised (HTTPException 500 ("Evaluation failed: " ++ str e))
  end.

(** A result without the text of its answer. *)
Definition without_content (r : EvaluationResult.t) : EvaluationResult.t :=
  EvaluationResult.mk
    (EvaluationResult.answer_id r) ""
    (EvaluationResult.overall_score r) (EvaluationResult.ranking_position r)
    (EvaluationResult.confidence r) (EvaluationResult.archetype_scores r)
    (EvaluationResult.strengths r) (EvaluationResult.weaknesses r)
    (EvaluationResult.improvement_suggestions r).

(** Two answers look alike to [compare_answers]: the same identifier and
    the same outcome of the two tests. *)
Definition alike (a1 a2 : AnswerInput.t) : Prop :=
  AnswerInput.id a1 = AnswerInput.id a2 /\
  long_answer (AnswerInput.content a1) = long_answer (AnswerInput.content a2) /\
  explanatory (AnswerInput.content a1) = explanatory (AnswerInput.content a2).

(** A request object whose [evaluation_type] is [None]. *)
Definition null_type_request : ComparisonRequest.t :=
  ComparisonRequest.mk "Explain gravity" gravity_answers None None.

(** Another problem, other words and a context; the identifiers and the
    outcome of the two tests on each answer are those of
    [gravity_request]. *)
Definition reworded_request : ComparisonRequest.t :=
  ComparisonRequest.mk "Why do things fall?"
    [AnswerInput.mk "Things fall because masses attract each other." (Some "a");
     AnswerInput.mk "They just do." (Some "b")]
    (Some "quick") (Some "A physics class").

(** A request whose answers carry no identifier of their own. *)
Definition unnamed_request : ComparisonRequest.t :=
  ComparisonRequest.mk "Explain gravity"
    [AnswerInput.mk "Gravity is a force." None;
     AnswerInput.mk "Gravity pulls masses together." (Some "")]
    (Some "comprehensive") None.

(** * Properties *)

(** ** Running the monad *)

Lemma bind_Ok {A B} (m : M A) (k : A -> M B) w b w' :
  (m ≫= k) w = (Ok b, w') ->
  exists a w1, m w = (Ok a, w1) /\ k a w1 = (Ok b, w').
Proof.
  unfold mbind, M_bind, bind. destruct (m w) as [[a|e] w1]; [eauto | discriminate].
Qed.

Lemma bind_Raised {A B} (m : M A) (k : A -> M B) w e w' :
  (m ≫= k) w = (Raised e, w') ->
  m w = (Raised e, w') \/
  exists a w1, m w = (Ok a, w1) /\ k a w1 = (Raised e, w').
Proof.
  unfold mbind, M_bind, bind. destruct (m w) as [[a|e0] w1]; [eauto |].
  intros [= -> ->]. by left.
Qed.

Lemma bind_run_Ok {A B} (m : M A) (k : A -> M B) w a w1 :
  m w = (Ok a, w1) -> (m ≫= k) w = k a w1.
Proof. unfold mbind, M_bind, bind. by intros ->. Qed.

Lemma bind_run_Raised {A B} (m : M A) (k : A -> M B) w e w1 :
  m w = (Raised e, w1) -> (m ≫= k) w = (Raised e, w1).
Proof. unfold mbind, M_bind, bind. by intros ->. Qed.

Lemma bind_assoc {A B C} (m : M A) (k1 : A -> M B) (k2 : B -> M C) w :
  ((m ≫= k1) ≫= k2) w = (m ≫= fun a => k1 a ≫= k2) w.
Proof. unfold mbind, M_bind, bind. by destruct (m w) as [[a|e] w1]. Qed.

Lemma mret_run {A} (a : A) w : (mret a : M A) w = (Ok a, w).
Proof. reflexivity. Qed.

Lemma try_except_Ok {A} (m : M A) e_new w a w' :
  try_except m (fun e => raise (e_new e)) w = (Ok a, w') -> m w = (Ok a, w').
Proof.
  unfold try_except, raise. destruct (m w) as [[a0|e] w1]; [done | discriminate].
Qed.

Lemma try_except_Raised {A} (m : M A) e_new w e w' :
  try_except m (fun e => raise (e_new e)) w = (Raised e, w') ->
  exists e0, m w = (Raised e0, w') /\ e = e_new e0.
Proof.
  unfold try_except, raise. destruct (m w) as [[a0|e0] w1]; [discriminate |].
  intros [= <- <-]. eauto.
Qed.

Lemma try_except_run_Ok {A} (m : M A) h w a w' :
  m w = (Ok a, w') -> try_except m h w = (Ok a, w').
Proof. unfold try_except. by intros ->. Qed.

Lemma try_except_run_Raised {A} (m : M A) h w e w' :
  m w = (Raised e, w') -> try_except m h w = h e w'.
Proof. unfold try_except. by intros ->. Qed.

(** ** Comparisons and means of rationals *)

Lemma Qlt_bool_true x y : Qlt_bool x y = true <-> x < y.
Proof.
  unfold Qlt_bool. rewrite negb_true_iff, <- not_true_iff_false, Qle_bool_iff.
  split; [apply Qnot_le_lt | apply Qlt_not_le].
Qed.

Lemma Qlt_bool_false x y : Qlt_bool x y = false <-> y <= x.
Proof.
  unfold Qlt_bool. rewrite negb_false_iff. apply Qle_bool_iff.
Qed.

Lemma min_le_r x y : Py.min x y <= y.
Proof.
  unfold Py.min. destruct (Qlt_bool y x) eqn:E; [apply Qle_refl |].
  by apply Qlt_bool_false.
Qed.

Lemma truediv_pos x n w :
  n ≠ O -> truediv x n w = (Ok (x / inject_Z (Z.of_nat n)), w).
Proof. by destruct n. Qed.

Lemma truediv_mean xs w : xs ≠ [] -> truediv (Py.sum xs) (length xs) w = (Ok (mean xs), w).
Proof. intros H. apply truediv_pos. by destruct xs. Qed.

Lemma truediv_Ok x n w q w' :
  truediv x n w = (Ok q, w') ->
  n ≠ O /\ q = x / inject_Z (Z.of_nat n) /\ w' = w.
Proof. destruct n; [discriminate |]. by intros [= <- <-]. Qed.

Lemma truediv_Raised x n w e w' :
  truediv x n w = (Raised e, w') -> n = O /\ e = ZeroDivisionError /\ w' = w.
Proof. destruct n; [| discriminate]. by intros [= <- <-]. Qed.

(** ** The stable descending sort *)

Lemma insert_desc_perm {A} (key : A -> Q) x l : insert_desc key x l ≡ₚ x :: l.
Proof.
  induction l as [|y l IH]; simpl; [done |].
  destruct (Qlt_bool (key x) (key y)); [| done].
  rewrite IH. apply Permutation_swap.
Qed.

Lemma sort_desc_perm {A} (key : A -> Q) l : sort_desc key l ≡ₚ l.
Proof.
  induction l as [|x l IH]; simpl; [done |].
  by rewrite insert_desc_perm, IH.
Qed.

Lemma sort_desc_length {A} (key : A -> Q) l :
  length (sort_desc key l) = length l.
Proof. by rewrite sort_desc_perm. Qed.

Lemma insert_desc_fmap {A B} (key : A -> Q) (f : B -> A) x s :
  f <$> insert_desc (key ∘ f) x s = insert_desc key (f x) (f <$> s).
Proof.
  induction s as [|y s IH]; csimpl; [done |].
  destruct (Qlt_bool (key (f x)) (key (f y))); csimpl; by rewrite ?IH.
Qed.

Lemma sort_desc_fmap {A B} (key : A -> Q) (f : B -> A) l :
  f <$> sort_desc (key ∘ f) l = sort_desc key (f <$> l).
Proof.
  unfold sort_desc. induction l as [|x l IH]; csimpl; [done |].
  by rewrite insert_desc_fmap, IH.
Qed.

Section Sorting.
Context {A : Type} (key : A -> Q).

Lemma before_trans p q r : before key p q -> before key q r -> before key p r.
Proof.
  intros [H1|[H1 L1]] [H2|[H2 L2]].
  - left. by eapply Qlt_trans.
  - left. by rewrite H2.
  - left. by rewrite <- H1.
  - right. split; [by rewrite H2 | lia].
Qed.

Lemma insert_tagged_sorted i x l :
  StronglySorted (before key) l ->
  Forall (fun q => (i < q.1)%nat) l ->
  StronglySorted (before key) (insert_desc (key ∘ snd) (i, x) l).
Proof.
  induction 1 as [|q l Hl IH Hq]; intros Hi; simpl.
  - repeat constructor.
  - apply Forall_cons in Hi as [Hiq Hi].
    destruct (Qlt_bool (key x) (key q.2)) eqn:E.
    + apply Qlt_bool_true in E. constructor; [by apply IH |].
      rewrite insert_desc_perm. constructor; [by left | done].
    + apply Qlt_bool_false in E.
      assert (before key (i, x) q) as Hxq.
      { apply Qle_lt_or_eq in E as [E|E]; [by left | by right]. }
      constructor; [by constructor |].
      constructor; [done |].
      eapply Forall_impl; [exact Hq |].
      intros r Hr. by eapply before_trans.
Qed.

Lemma before_asym p q : before key p q -> before key q p -> False.
Proof.
  intros [H1|[H1 L1]] [H2|[H2 L2]].
  - apply (Qlt_irrefl (key p.2)). by eapply Qlt_trans.
  - rewrite H2 in H1. by apply Qlt_irrefl in H1.
  - rewrite H1 in H2. by apply Qlt_irrefl in H2.
  - lia.
Qed.

(** Two arrangements of the same tagged elements that both respect [before]
    are the same list: the result of a stable descending sort is determined
    by its specification, whatever the algorithm. *)
Lemma sorted_before_unique (l1 l2 : list (nat * A)) :
  StronglySorted (before key) l1 -> StronglySorted (before key) l2 ->
  l1 ≡ₚ l2 -> l1 = l2.
Proof.
  intros H1. revert l2. induction H1 as [|p l1 H1 IH Hp]; intros l2 H2 Hperm.
  - by apply Permutation_nil_l in Hperm.
  - destruct H2 as [|q l2 H2 Hq].
    { by apply Permutation_nil_r in Hperm. }
    assert (p = q) as ->.
    { assert (p ∈ q :: l2) as Hin1 by (rewrite <- Hperm; left).
      assert (q ∈ p :: l1) as Hin2 by (rewrite Hperm; left).
      apply elem_of_cons in Hin1 as [->|Hin1]; [done |].
      apply elem_of_cons in Hin2 as [->|Hin2]; [done |].
      rewrite Forall_forall in Hp, Hq.
      destruct (before_asym p q); [by apply Hp | by apply Hq]. }
    f_equal. apply IH; [done |]. by apply Permutation_cons_inv in Hperm.
Qed.

Lemma sort_tagged_sorted (l : list (nat * A)) :
  StronglySorted (fun p q => (p.1 < q.1)%nat) l ->
  StronglySorted (before key) (sort_desc (key ∘ snd) l).
Proof.
  induction 1 as [|[i x] l Hl IH Hi]; simpl; [constructor |].
  apply insert_tagged_sorted; [done |].
  by rewrite sort_desc_perm.
Qed.
End Sorting.

Lemma enumerate_from_snd {A} s (l : list A) : (enumerate_from s l).*2 = l.
Proof. revert s. induction l as [|x l IH]; intros s; simpl; by rewrite ?IH. Qed.

Lemma enumerate_from_fst {A} s (l : list A) :
  (enumerate_from s l).*1 = seq s (length l).
Proof. revert s. induction l as [|x l IH]; intros s; simpl; by rewrite ?IH. Qed.

Lemma enumerate_from_lookup {A} s (l : list A) k i x :
  enumerate_from s l !! k = Some (i, x) -> i = (s + k)%nat /\ l !! k = Some x.
Proof.
  revert s k. induction l as [|y l IH]; intros s k; simpl; [done |].
  destruct k as [|k]; simpl.
  - intros [= <- <-]. split; [lia | done].
  - intros H. apply IH in H as [-> H]. split; [lia | done].
Qed.

Lemma enumerate_from_elem {A} s (l : list A) i x :
  (i, x) ∈ enumerate_from s l -> (s <= i)%nat /\ l !! (i - s)%nat = Some x.
Proof.
  intros [k Hk]%list_elem_of_lookup.
  apply enumerate_from_lookup in Hk as [-> Hk].
  split; [lia |]. by replace (s + k - s)%nat with k by lia.
Qed.

Lemma enumerate_from_sorted {A} s (l : list A) :
  StronglySorted (fun p q : nat * A => (p.1 < q.1)%nat) (enumerate_from s l).
Proof.
  revert s. induction l as [|x l IH]; intros s; simpl; constructor; [done |].
  apply Forall_forall. intros [i y] Hy.
  apply enumerate_from_elem in Hy as [Hy _]. simpl. lia.
Qed.

Lemma StronglySorted_lookup {A} (R : A -> A -> Prop) l i j x y :
  StronglySorted R l -> (i < j)%nat ->
  l !! i = Some x -> l !! j = Some y -> R x y.
Proof.
  intros Hl. revert i j. induction Hl as [|z l Hl IH Hz]; intros i j Hij; [done |].
  destruct j as [|j]; [lia |]. destruct i as [|i]; simpl.
  - intros [= ->] Hy. eapply Forall_forall; [exact Hz |].
    by eapply list_elem_of_lookup_2.
  - apply IH. lia.
Qed.

(** The sort, described by the input position [σ !! k] of the element that
    ends at position [k]: a permutation of the positions, scores descending,
    and equal scores in input order. *)
Lemma sort_desc_stable {A} (key : A -> Q) (l : list A) :
  exists σ : list nat,
    σ ≡ₚ seq 0 (length l) /\
    (forall k i, σ !! k = Some i -> sort_desc key l !! k = l !! i /\ (i < length l)%nat) /\
    (forall k1 k2 i1 i2 x y,
       (k1 < k2)%nat -> σ !! k1 = Some i1 -> σ !! k2 = Some i2 ->
       l !! i1 = Some x -> l !! i2 = Some y ->
       key y <= key x /\ (key x == key y -> (i1 < i2)%nat)).
Proof.
  set (st := sort_desc (key ∘ snd) (enumerate_from 0 l)).
  assert (st.*2 = sort_desc key l) as Hsnd.
  { unfold st. by rewrite sort_desc_fmap, enumerate_from_snd. }
  assert (forall k i x, st !! k = Some (i, x) -> l !! i = Some x) as Hst.
  { intros k i x Hk. apply list_elem_of_lookup_2 in Hk.
    unfold st in Hk. rewrite sort_desc_perm in Hk.
    apply enumerate_from_elem in Hk as [_ Hk].
    by replace (i - 0)%nat with i in Hk by lia. }
  assert (forall k i, st.*1 !! k = Some i -> exists x, st !! k = Some (i, x)) as Hfst.
  { intros k i Hk. rewrite list_lookup_fmap in Hk.
    destruct (st !! k) as [[i' x]|]; simplify_eq/=. eauto. }
  exists st.*1. split; [| split].
  - unfold st. by rewrite sort_desc_perm, enumerate_from_fst.
  - intros k i Hk. destruct (Hfst _ _ Hk) as [x Hx].
    rewrite <- Hsnd, list_lookup_fmap, Hx. simpl.
    pose proof (Hst _ _ _ Hx) as Hl. split; [done |].
    by eapply lookup_lt_Some.
  - intros k1 k2 i1 i2 x y Hk H1 H2 Hx Hy.
    destruct (Hfst _ _ H1) as [x' Hx'], (Hfst _ _ H2) as [y' Hy'].
    pose proof (Hst _ _ _ Hx'). pose proof (Hst _ _ _ Hy'). simplify_eq.
    pose proof (StronglySorted_lookup _ _ _ _ _ _
      (sort_tagged_sorted key _ (enumerate_from_sorted 0 l)) Hk Hx' Hy') as Hb.
    destruct Hb as [Hb|[Hb Hlt]]; simpl in *.
    + split; [by apply Qlt_le_weak |].
      intros E. rewrite E in Hb. by apply Qlt_irrefl in Hb.
    + split; [by rewrite Hb; apply Qle_refl | done].
Qed.

(** Any arrangement of the input that puts higher keys first and keeps equal
    keys in input order is the one [sort_desc] computes. *)
Lemma sort_desc_unique {A} (key : A -> Q) (l : list A) (l' : list (nat * A)) :
  l' ≡ₚ enumerate_from 0 l -> StronglySorted (before key) l' ->
  l'.*2 = sort_desc key l.
Proof.
  intros Hperm Hsorted.
  transitivity ((sort_desc (key ∘ snd) (enumerate_from 0 l)).*2).
  2: { by rewrite sort_desc_fmap, enumerate_from_snd. }
  f_equal. apply (sorted_before_unique key); [done | |].
  - apply sort_tagged_sorted, enumerate_from_sorted.
  - by rewrite sort_desc_perm.
Qed.

(** ** The generator and the mock scorer *)

Lemma random_uniform_total a b w :
  exists r w', random_uniform a b w = (Ok (a + (b - a) * r), w').
Proof.
  unfold random_uniform, mbind, M_bind, bind, random_random.
  destruct (random_tape w); eauto.
Qed.

Lemma randbelow_total n w :
  (0 < n)%nat -> exists j w', randbelow n w = (Ok j, w') /\ (j < n)%nat.
Proof.
  intros Hn. unfold randbelow. destruct (randbelow_tape w) as [|k t].
  - eauto.
  - eexists _, _. split; [done |]. apply Nat.mod_upper_bound. lia.
Qed.

(** The two sampled suggestions are distinct members of the pool. *)
Lemma random_sample_suggestions w :
  exists x y w',
    random_sample suggestions 2 w = (Ok [x; y], w') /\
    x ≠ y /\ x ∈ suggestions /\ y ∈ suggestions.
Proof.
  unfold random_sample. simpl.
  destruct (randbelow_total 4 w) as (j0 & w1 & H0 & Hj0); [lia |].
  rewrite (bind_run_Ok _ _ _ _ _ H0).
  destruct (randbelow_total 3 w1) as (j1 & w2 & H1 & Hj1); [lia |].
  assert (j0 = 0 \/ j0 = 1 \/ j0 = 2 \/ j0 = 3)%nat as Hc0 by lia.
  assert (j1 = 0 \/ j1 = 1 \/ j1 = 2)%nat as Hc1 by lia.
  destruct_or!; subst j0 j1; simpl; rewrite (bind_run_Ok _ _ _ _ _ H1); simpl;
    eexists _, _, _; (split; [reflexivity |]);
    (split; [discriminate |]); unfold suggestions; set_solver.
Qed.

(** The mock scorer always answers, with the five archetypes in order and
    no score above 1. *)
Lemma mock_scorer_total problem answer context w :
  exists l w',
    mock_scorer problem answer context w = (Ok l, w') /\
    ArchetypeScore.archetype <$> l = archetypes /\
    Forall (fun s => ArchetypeScore.score s <= 1) l.
Proof.
  unfold mock_scorer.
  destruct (random_uniform_total 0.6 0.9 w) as (r0 & w0 & H0).
  rewrite (bind_run_Ok _ _ _ _ _ H0).
  destruct (random_uniform_total (-0.1) 0.1 w0) as (r1 & w1 & H1).
  rewrite (bind_run_Ok _ _ _ _ _ H1).
  destruct (random_uniform_total (-0.05) 0.05 w1) as (r2 & w2 & H2).
  rewrite (bind_run_Ok _ _ _ _ _ H2).
  destruct (random_uniform_total (-0.08) 0.08 w2) as (r3 & w3 & H3).
  rewrite (bind_run_Ok _ _ _ _ _ H3).
  destruct (random_uniform_total (-0.05) 0.05 w3) as (r4 & w4 & H4).
  rewrite (bind_run_Ok _ _ _ _ _ H4).
  destruct (random_uniform_total (-0.07) 0.07 w4) as (r5 & w5 & H5).
  rewrite (bind_run_Ok _ _ _ _ _ H5).
  eexists _, _. split; [reflexivity |]. split; [reflexivity |].
  repeat (apply List.Forall_cons;
          [simpl; eapply Qle_trans; [apply min_le_r | by compute] |]).
  apply List.Forall_nil.
Qed.

(** ** One evaluation *)

Lemma evaluate_answer_with_Ok scorer problem answer context w ai w' :
  evaluate_answer_with scorer problem answer context w = (Ok ai, w') ->
  (exists w1, scorer problem answer context w
                = (Ok (AiResult.archetype_scores ai), w1)) /\
  AiResult.archetype_scores ai ≠ [] /\
  AiResult.overall_score ai
    = mean (ArchetypeScore.score <$> AiResult.archetype_scores ai) /\
  AiResult.strengths ai = strengths_of (AiResult.archetype_scores ai) /\
  AiResult.weaknesses ai = weaknesses_of (AiResult.archetype_scores ai) /\
  two_suggestions (AiResult.improvement_suggestions ai).
Proof.
  unfold evaluate_answer_with. intros H.
  apply bind_Ok in H as (l & w1 & Hs & H).
  apply bind_Ok in H as (m & w2 & Hm & H).
  apply truediv_Ok in Hm as (Hl & -> & ->).
  destruct (random_sample_suggestions w1) as (x & y & w3 & Hxy & Hsug).
  rewrite (bind_run_Ok _ _ _ _ _ Hxy) in H. injection H as <- <-. simpl.
  split; [eauto |]. split; [by destruct l |].
  split; [unfold mean; by rewrite length_fmap |].
  split; [done |]. split; [done |]. by exists x, y.
Qed.

Lemma evaluate_answer_with_total scorer problem answer context w l w1 :
  scorer problem answer context w = (Ok l, w1) -> l ≠ [] ->
  exists ai w', evaluate_answer_with scorer problem answer context w = (Ok ai, w').
Proof.
  intros Hs Hl. unfold evaluate_answer_with.
  rewrite (bind_run_Ok _ _ _ _ _ Hs).
  assert (length l ≠ O) as Hn by (by destruct l).
  rewrite (bind_run_Ok _ _ _ _ _
             (truediv_pos (Py.sum (ArchetypeScore.score <$> l)) _ w1 Hn)).
  destruct (random_sample_suggestions w1) as (x & y & w3 & Hxy & _).
  rewrite (bind_run_Ok _ _ _ _ _ Hxy). eauto.
Qed.

Lemma evaluate_answer_with_Raised scorer problem answer context w e w' :
  evaluate_answer_with scorer problem answer context w = (Raised e, w') ->
  scorer problem answer context w = (Raised e, w') \/
  (scorer problem answer context w = (Ok [], w') /\ e = ZeroDivisionError).
Proof.
  unfold evaluate_answer_with. intros H.
  apply bind_Raised in H as [H|(l & w1 & Hs & H)]; [by left |].
  apply bind_Raised in H as [H|(m & w2 & Hm & H)].
  - apply truediv_Raised in H as (Hl & -> & ->).
    destruct l; [| done]. by right.
  - destruct (random_sample_suggestions w2) as (x & y & w3 & Hxy & _).
    by rewrite (bind_run_Ok _ _ _ _ _ Hxy) in H.
Qed.

(** The evaluator of the source is the second half applied to the first. *)
Lemma evaluate_answer_with_ai_eq problem answer context w :
  evaluate_answer_with_ai problem answer context w
  = evaluate_answer_with mock_scorer problem answer context w.
Proof.
  unfold evaluate_answer_with_ai, evaluate_answer_with, mock_scorer.
  rewrite bind_assoc.
  destruct (random_uniform_total 0.6 0.9 w) as (r0 & w0 & H0).
  rewrite !(bind_run_Ok _ _ _ _ _ H0), bind_assoc.
  destruct (random_uniform_total (-0.1) 0.1 w0) as (r1 & w1 & H1).
  rewrite !(bind_run_Ok _ _ _ _ _ H1), bind_assoc.
  destruct (random_uniform_total (-0.05) 0.05 w1) as (r2 & w2 & H2).
  rewrite !(bind_run_Ok _ _ _ _ _ H2), bind_assoc.
  destruct (random_uniform_total (-0.08) 0.08 w2) as (r3 & w3 & H3).
  rewrite !(bind_run_Ok _ _ _ _ _ H3), bind_assoc.
  destruct (random_uniform_total (-0.05) 0.05 w3) as (r4 & w4 & H4).
  rewrite !(bind_run_Ok _ _ _ _ _ H4), bind_assoc.
  destruct (random_uniform_total (-0.07) 0.07 w4) as (r5 & w5 & H5).
  rewrite !(bind_run_Ok _ _ _ _ _ H5).
  reflexivity.
Qed.

Lemma evaluate_answer_with_ai_total problem answer context w :
  exists ai w', evaluate_answer_with_ai problem answer context w = (Ok ai, w').
Proof.
  rewrite evaluate_answer_with_ai_eq.
  destruct (mock_scorer_total problem answer context w) as (l & w1 & Hs & Ha & _).
  eapply evaluate_answer_with_total; [exact Hs |]. by destruct l.
Qed.

(** ** The archetype summary *)

Lemma collect_scores_eq rs :
  collect_scores rs
  = foldl (fun summary r =>
             foldl collect_step summary (EvaluationResult.archetype_scores r))
          ∅ rs.
Proof. reflexivity. Qed.

Lemma nonempty_snoc l x : nonempty (l ++ [x]) = Some (l ++ [x])%list.
Proof. by destruct l. Qed.

Lemma collect_step_lookup summary s l a :
  summary !! a = nonempty l ->
  collect_step summary s !! a
  = nonempty (l ++ (ArchetypeScore.score
                      <$> filter (fun s => ArchetypeScore.archetype s = a) [s])).
Proof.
  intros H. unfold collect_step.
  rewrite filter_cons, filter_nil.
  destruct (decide (ArchetypeScore.archetype s = a)) as [->|Hne]; csimpl.
  - rewrite nonempty_snoc. destruct (summary !! a) as [l'|] eqn:E.
    + rewrite lookup_alter_eq, E. simpl. destruct l; simplify_eq/=. done.
    + rewrite lookup_alter_eq, lookup_insert_eq. simpl.
      destruct l; simplify_eq/=. done.
  - rewrite app_nil_r, lookup_alter_ne by done.
    destruct (summary !! ArchetypeScore.archetype s);
      by rewrite ?lookup_insert_ne.
Qed.

Lemma collect_steps_lookup xs summary l a :
  summary !! a = nonempty l ->
  foldl collect_step summary xs !! a
  = nonempty (l ++ (ArchetypeScore.score
                      <$> filter (fun s => ArchetypeScore.archetype s = a) xs)).
Proof.
  revert summary l. induction xs as [|s xs IH]; intros summary l H; simpl.
  - by rewrite app_nil_r.
  - erewrite IH; [| by apply collect_step_lookup].
    f_equal. rewrite <- app_assoc, <- fmap_app. f_equal. f_equal.
    by rewrite (filter_app _ [s] xs).
Qed.

Lemma collect_scores_from rs summary l a :
  summary !! a = nonempty l ->
  foldl (fun summary r =>
           foldl collect_step summary (EvaluationResult.archetype_scores r))
        summary rs !! a
  = nonempty (l ++ all_scores_for a rs).
Proof.
  revert summary l. induction rs as [|r rs IH]; intros summary l H; simpl.
  - by rewrite app_nil_r.
  - erewrite IH; [| by apply collect_steps_lookup].
    by rewrite <- app_assoc.
Qed.

(** After the first loop, the entry of [a] is the list of all its scores,
    and archetypes without a score have no entry. *)
Lemma collect_scores_lookup rs a :
  collect_scores rs !! a = nonempty (all_scores_for a rs).
Proof. rewrite collect_scores_eq. by apply (collect_scores_from rs ∅ []). Qed.

Lemma collect_scores_nonempty rs :
  map_Forall (fun _ l => l ≠ []) (collect_scores rs : gmap string (list Q)).
Proof.
  intros a l H. rewrite collect_scores_lookup in H.
  destruct (all_scores_for a rs); by simplify_eq/=.
Qed.

Lemma average_loop_lookup (l : list (string * list Q)) (acc : gmap string Q) w :
  NoDup l.*1 -> Forall (fun kv => kv.2 ≠ []) l ->
  exists summary : gmap string Q,
    for_each l
      (fun '(archetype, scores) summary =>
         mean ← truediv (Py.sum scores) (length scores);
         mret (<[archetype := mean]> summary))
      acc w = (Ok summary, w) /\
    forall a, summary !! a
              = match (list_to_map l : gmap string (list Q)) !! a with
                | Some scores => Some (mean scores)
                | None => acc !! a
                end.
Proof.
  revert acc. induction l as [|[k v] l IH]; intros acc Hnd Hne; csimpl.
  - exists acc. split; [done |]. intros a. by rewrite lookup_empty.
  - apply NoDup_cons in Hnd as [Hk Hnd]. apply Forall_cons in Hne as [Hv Hne].
    rewrite (bind_run_Ok _ _ _ _ _
               (bind_run_Ok _ _ _ _ _ (truediv_mean v w Hv))).
    destruct (IH (<[k := mean v]> acc) Hnd Hne) as (summary & Hrun & Hlook).
    exists summary. split; [done |]. intros a. rewrite Hlook.
    destruct (decide (k = a)) as [->|Hka].
    + rewrite lookup_insert_eq.
      rewrite (not_elem_of_list_to_map_1 _ a) by done.
      by rewrite lookup_insert_eq.
    + by rewrite !lookup_insert_ne.
Qed.

(** The second loop never raises on what the first loop collected, and
    leaves the mean of every list. *)
Lemma average_scores_collect rs w :
  average_scores (collect_scores rs) w = (Ok (mean <$> collect_scores rs), w).
Proof.
  unfold average_scores.
  destruct (average_loop_lookup (map_to_list (collect_scores rs)) ∅ w)
    as (summary & Hrun & Hlook).
  - apply NoDup_fst_map_to_list.
  - apply Forall_forall. intros [k v] Hkv. simpl.
    apply elem_of_map_to_list in Hkv. by eapply collect_scores_nonempty.
  - rewrite Hrun. do 2 f_equal. apply map_eq. intros a.
    rewrite Hlook, list_to_map_to_list, lookup_fmap, lookup_empty.
    by destruct (collect_scores rs !! a).
Qed.

(** ** The handler, step by step *)

Lemma compare_answers_with_eq evaluator request :
  compare_answers_with evaluator request
  = (request_id ← uuid4;
     start_time ← time_time;
     try_except
       (evaluation_results ←
          for_enumerate 0 (ComparisonRequest.answers request)
            (evaluation_step evaluator request) [];
        finish request request_id start_time evaluation_results)
       (fun e => raise (HTTPException 500 ("Evaluation failed: " ++ str e)))).
Proof. reflexivity. Qed.

Lemma uuid4_total w : exists u w', uuid4 w = (Ok u, w').
Proof. unfold uuid4. destruct (uuid_tape w); eauto. Qed.

Lemma time_time_total w : exists t w', time_time w = (Ok t, w').
Proof. unfold time_time. destruct (clock_tape w); eauto. Qed.

Section Loop.
Context (evaluator : Evaluator) (request : ComparisonRequest.t).

Lemma loop_Ok l start acc w rs w' :
  for_enumerate start l (evaluation_step evaluator request) acc w
    = (Ok rs, w') ->
  exists new,
    rs = (acc ++ new)%list /\
    Forall2 (built evaluator request) (enumerate_from start l) new.
Proof.
  revert start acc w. induction l as [|a l IH]; intros start acc w H; simpl in *.
  - injection H as <- <-. exists []. by rewrite app_nil_r.
  - apply bind_Ok in H as (acc' & w1 & Hb & H).
    apply bind_Ok in Hb as (ai & w2 & Hev & Hret).
    injection Hret as <- <-.
    apply IH in H as (new & -> & HF).
    exists (make_result start a ai :: new).
    split; [by rewrite <- app_assoc |].
    constructor; [| done]. by exists w, w2, ai.
Qed.

Lemma loop_Raised l start acc w e w' :
  for_enumerate start l (evaluation_step evaluator request) acc w
    = (Raised e, w') ->
  exists a w1,
    a ∈ l /\
    evaluator (ComparisonRequest.problem request) (AnswerInput.content a)
              (ComparisonRequest.context request) w1 = (Raised e, w').
Proof.
  revert start acc w. induction l as [|a l IH]; intros start acc w H; simpl in *.
  - discriminate.
  - apply bind_Raised in H as [H|(acc' & w1 & Hb & H)].
    + apply bind_Raised in H as [H|(ai & w2 & _ & H)]; [| discriminate].
      exists a, w. split; [left | done].
    + apply IH in H as (b & w2 & Hb' & H). exists b, w2. split; [by right | done].
Qed.

Lemma loop_total l start acc w :
  (forall a w1, a ∈ l ->
     exists ai w2,
       evaluator (ComparisonRequest.problem request) (AnswerInput.content a)
                 (ComparisonRequest.context request) w1 = (Ok ai, w2)) ->
  exists rs w',
    for_enumerate start l (evaluation_step evaluator request) acc w
      = (Ok rs, w').
Proof.
  revert start acc w.
  induction l as [|a l IH]; intros start acc w H; cbn [for_enumerate].
  - eauto.
  - destruct (H a w) as (ai & w2 & Hev); [left |].
    assert (evaluation_step evaluator request start a acc w
            = (Ok (acc ++ [make_result start a ai])%list, w2)) as Hstep.
    { unfold evaluation_step. by rewrite (bind_run_Ok _ _ _ _ _ Hev). }
    rewrite (bind_run_Ok _ _ _ _ _ Hstep).
    apply IH. intros b w1 Hb. apply H. by right.
Qed.
End Loop.

Lemma ranked_length l : length (ranked l) = length l.
Proof. unfold ranked. by rewrite length_imap, sort_desc_length. Qed.

Lemma ranked_lookup l k :
  ranked l !! k
  = EvaluationResult.set_ranking_position (k + 1)
      <$> sort_desc EvaluationResult.overall_score l !! k.
Proof. unfold ranked. by rewrite list_lookup_imap. Qed.

Section Finish.
Context (request : ComparisonRequest.t) (request_id : string) (start_time : Q).

Lemma finish_Ok evaluated w resp w' :
  finish request request_id start_time evaluated w = (Ok resp, w') ->
  evaluated ≠ [] /\
  ComparisonResponse.results resp = ranked evaluated /\
  head (EvaluationResult.answer_id <$> ranked evaluated)
    = Some (ComparisonResponse.best_answer resp) /\
  ComparisonResponse.archetype_summary resp
    = mean <$> collect_scores (ranked evaluated) /\
  ComparisonResponse.confidence_summary resp
    = <["evaluation_reliability" := 0.724]>
        (<["ranking_confidence" := 0.728]>
           (<["average_confidence" :=
                mean (EvaluationResult.confidence <$> ranked evaluated)]> ∅)) /\
  ComparisonRequest.evaluation_type request
    = Some (ComparisonResponse.evaluation_type resp) /\
  ComparisonResponse.problem resp = ComparisonRequest.problem request /\
  ComparisonResponse.request_id resp = request_id.
Proof.
  unfold finish. intros H.
  apply bind_Ok in H as (avg & w1 & Havg & H).
  apply truediv_Ok in Havg as (Hn & -> & ->).
  rewrite (bind_run_Ok _ _ _ _ _ (average_scores_collect _ _)) in H.
  apply bind_Ok in H as (t1 & w2 & _ & H).
  apply bind_Ok in H as (t2 & w3 & _ & H).
  unfold lift in H. rewrite ranked_length in Hn.
  assert (evaluated ≠ []) as Hne by (by destruct evaluated).
  split; [done |].
  replace (Py.sum (EvaluationResult.confidence <$> ranked evaluated)
           / inject_Z (Z.of_nat (length (ranked evaluated))))
    with (mean (EvaluationResult.confidence <$> ranked evaluated)) in H
    by (unfold mean; by rewrite length_fmap).
  destruct (ComparisonRequest.evaluation_type request) as [et|],
           (ranked evaluated) as [|r rs] eqn:E; simplify_eq/=.
  done.
Qed.

Lemma finish_total evaluated et w :
  evaluated ≠ [] ->
  ComparisonRequest.evaluation_type request = Some et ->
  exists resp w',
    finish request request_id start_time evaluated w = (Ok resp, w').
Proof.
  intros Hne Het. unfold finish.
  assert (length (ranked evaluated) ≠ O) as Hn.
  { rewrite ranked_length. by destruct evaluated. }
  rewrite (bind_run_Ok _ _ _ _ _ (truediv_pos _ _ w Hn)).
  rewrite (bind_run_Ok _ _ _ _ _ (average_scores_collect _ _)).
  destruct (time_time_total w) as (t1 & w1 & H1).
  rewrite (bind_run_Ok _ _ _ _ _ H1).
  destruct (time_time_total w1) as (t2 & w2 & H2).
  unfold datetime_now. rewrite (bind_run_Ok _ _ _ _ _ H2).
  unfold lift. rewrite Het.
  destruct (ranked evaluated); [done |]. simpl. eauto.
Qed.

Lemma finish_Raised evaluated w e w' :
  finish request request_id start_time evaluated w = (Raised e, w') ->
  (evaluated = [] /\ e = ZeroDivisionError) \/
  (ComparisonRequest.evaluation_type request = None /\
   exists msg, e = ValidationError msg).
Proof.
  unfold finish. intros H.
  apply bind_Raised in H as [H|(avg & w1 & Havg & H)].
  { apply truediv_Raised in H as (Hn & -> & _). left.
    rewrite ranked_length in Hn. by destruct evaluated. }
  apply truediv_Ok in Havg as (Hn & _ & ->).
  rewrite (bind_run_Ok _ _ _ _ _ (average_scores_collect _ _)) in H.
  destruct (time_time_total w) as (t1 & w2 & H1).
  rewrite (bind_run_Ok _ _ _ _ _ H1) in H.
  destruct (time_time_total w2) as (t2 & w3 & H2).
  unfold datetime_now in H. rewrite (bind_run_Ok _ _ _ _ _ H2) in H.
  unfold lift in H. right.
  destruct (ComparisonRequest.evaluation_type request) as [et|],
           (ranked evaluated) as [|r rs] eqn:E; simplify_eq/=; eauto.
Qed.
End Finish.

(** ** The handler as a whole *)

Lemma compare_answers_with_Ok evaluator request w resp w' :
  compare_answers_with evaluator request w = (Ok resp, w') ->
  exists evaluated,
    Forall2 (built evaluator request)
            (enumerate_from 0 (ComparisonRequest.answers request)) evaluated /\
    evaluated ≠ [] /\
    ComparisonResponse.results resp = ranked evaluated /\
    head (EvaluationResult.answer_id <$> ranked evaluated)
      = Some (ComparisonResponse.best_answer resp) /\
    ComparisonResponse.archetype_summary resp
      = mean <$> collect_scores (ranked evaluated) /\
    ComparisonRequest.evaluation_type request
      = Some (ComparisonResponse.evaluation_type resp).
Proof.
  rewrite compare_answers_with_eq. intros H.
  apply bind_Ok in H as (rid & w1 & _ & H).
  apply bind_Ok in H as (t0 & w2 & _ & H).
  apply try_except_Ok in H.
  apply bind_Ok in H as (evaluated & w4 & Hloop & Hfin).
  apply loop_Ok in Hloop as (new & -> & HF). simpl in *.
  apply finish_Ok in Hfin as (Hne & Hres & Hbest & Hsum & _ & Het & _).
  by exists new.
Qed.

Lemma compare_answers_with_Raised evaluator request w e w' :
  compare_answers_with evaluator request w = (Raised e, w') ->
  exists e0,
    e = HTTPException 500 ("Evaluation failed: " ++ str e0) /\
    ((exists a w1, a ∈ ComparisonRequest.answers request /\
        evaluator (ComparisonRequest.problem request) (AnswerInput.content a)
                  (ComparisonRequest.context request) w1 = (Raised e0, w')) \/
     (exists evaluated,
        Forall2 (built evaluator request)
          (enumerate_from 0 (ComparisonRequest.answers request)) evaluated /\
        ((ComparisonRequest.answers request = [] /\ e0 = ZeroDivisionError) \/
         (ComparisonRequest.evaluation_type request = None /\
          exists msg, e0 = ValidationError msg)))).
Proof.
  rewrite compare_answers_with_eq. intros H.
  destruct (uuid4_total w) as (rid & w1 & Hu).
  rewrite (bind_run_Ok _ _ _ _ _ Hu) in H.
  destruct (time_time_total w1) as (t0 & w2 & Ht).
  rewrite (bind_run_Ok _ _ _ _ _ Ht) in H.
  apply try_except_Raised in H as (e0 & Hrun & ->).
  exists e0. split; [done |].
  apply bind_Raised in Hrun as [Hloop|(evaluated & w4 & Hloop & Hfin)].
  - left. by apply loop_Raised in Hloop.
  - right. apply loop_Ok in Hloop as (new & -> & HF). simpl in *.
    exists new. split; [done |].
    apply finish_Raised in Hfin as [[-> ->]|[Het Hmsg]]; [left | by right].
    split; [| done]. apply Forall2_nil_inv_r in HF.
    by destruct (ComparisonRequest.answers request).
Qed.

Lemma compare_answers_with_total evaluator request et w :
  ComparisonRequest.answers request ≠ [] ->
  ComparisonRequest.evaluation_type request = Some et ->
  (forall a w1, a ∈ ComparisonRequest.answers request ->
     exists ai w2,
       evaluator (ComparisonRequest.problem request) (AnswerInput.content a)
                 (ComparisonRequest.context request) w1 = (Ok ai, w2)) ->
  exists resp w', compare_answers_with evaluator request w = (Ok resp, w').
Proof.
  intros Hne Het Hev. rewrite compare_answers_with_eq.
  destruct (uuid4_total w) as (rid & w1 & Hu).
  rewrite (bind_run_Ok _ _ _ _ _ Hu).
  destruct (time_time_total w1) as (t0 & w2 & Ht).
  rewrite (bind_run_Ok _ _ _ _ _ Ht).
  destruct (loop_total evaluator request _ 0 [] w2 Hev) as (rs & w3 & Hloop).
  pose proof Hloop as Hrs. apply loop_Ok in Hrs as (new & -> & HF). simpl in *.
  assert (new ≠ []) as Hnew.
  { intros ->. apply Forall2_nil_inv_r in HF.
    by destruct (ComparisonRequest.answers request). }
  destruct (finish_total request rid t0 new et w3 Hnew Het) as (resp & w4 & Hfin).
  exists resp, w4. apply try_except_run_Ok.
  by rewrite (bind_run_Ok _ _ _ _ _ Hloop).
Qed.

Lemma compare_answers_total request et w :
  ComparisonRequest.answers request ≠ [] ->
  ComparisonRequest.evaluation_type request = Some et ->
  exists resp w', compare_answers request w = (Ok resp, w').
Proof.
  intros Hne Het. eapply compare_answers_with_total; [done | done |].
  intros a w1 _. apply evaluate_answer_with_ai_total.
Qed.

Lemma for_enumerate_ext {A St} (l : list A) (body1 body2 : nat -> A -> St -> M St)
    start acc w :
  (forall i x acc w, body1 i x acc w = body2 i x acc w) ->
  for_enumerate start l body1 acc w = for_enumerate start l body2 acc w.
Proof.
  intros H. revert start acc w.
  induction l as [|x l IH]; intros start acc w; simpl; [done |].
  unfold mbind, M_bind, bind. rewrite H.
  destruct (body2 start x acc w) as [[acc'|e] w1]; [apply IH | done].
Qed.

(** Two evaluators that answer alike make the handler answer alike. *)
Lemma compare_answers_with_ext evaluator1 evaluator2 request w :
  (forall problem answer context w,
     evaluator1 problem answer context w = evaluator2 problem answer context w) ->
  compare_answers_with evaluator1 request w
  = compare_answers_with evaluator2 request w.
Proof.
  intros H. rewrite !compare_answers_with_eq.
  unfold mbind, M_bind, bind, try_except.
  destruct (uuid4 w) as [[rid|e] w1]; [| done].
  destruct (time_time w1) as [[t0|e] w2]; [| done].
  rewrite (for_enumerate_ext _ (evaluation_step evaluator1 request)
             (evaluation_step evaluator2 request)); [done |].
  intros i x acc w3. unfold evaluation_step, mbind, M_bind, bind.
  by rewrite H.
Qed.

(** The handler of the source, in terms of the two halves of its evaluator. *)
Lemma compare_answers_eq request w :
  compare_answers request w
  = compare_answers_with (evaluate_answer_with mock_scorer) request w.
Proof. apply compare_answers_with_ext, evaluate_answer_with_ai_eq. Qed.

Lemma ComparisonRequest_new_Ok problem answers evaluation_type context request :
  ComparisonRequest.new problem answers evaluation_type context = Ok request ->
  (2 <= length answers <= 10)%nat /\
  request = ComparisonRequest.mk problem answers evaluation_type context.
Proof.
  unfold ComparisonRequest.new.
  destruct (length answers <? 2)%nat eqn:E1; [discriminate |].
  destruct (10 <? length answers)%nat eqn:E2; [discriminate |].
  intros [= <-]. apply Nat.ltb_ge in E1, E2. done.
Qed.

(** ** The ranking *)

Lemma enumerate_from_length {A} s (l : list A) :
  length (enumerate_from s l) = length l.
Proof. by rewrite <- (length_fmap snd), enumerate_from_snd. Qed.

(** The ranked results, position by position: [σ !! k] is the input position
    of the answer ranked [k + 1]. *)
Lemma ranked_spec evaluator request evaluated :
  Forall2 (built evaluator request)
          (enumerate_from 0 (ComparisonRequest.answers request)) evaluated ->
  exists σ : list nat,
    σ ≡ₚ seq 0 (length (ComparisonRequest.answers request)) /\
    length (ranked evaluated) = length (ComparisonRequest.answers request) /\
    (forall k r, ranked evaluated !! k = Some r ->
       exists i a ai,
         σ !! k = Some i /\
         ComparisonRequest.answers request !! i = Some a /\
         built evaluator request (i, a) (make_result i a ai) /\
         r = EvaluationResult.set_ranking_position (k + 1) (make_result i a ai)) /\
    (forall k1 k2 r1 r2 i1 i2,
       (k1 < k2)%nat ->
       ranked evaluated !! k1 = Some r1 -> ranked evaluated !! k2 = Some r2 ->
       σ !! k1 = Some i1 -> σ !! k2 = Some i2 ->
       EvaluationResult.overall_score r2 <= EvaluationResult.overall_score r1 /\
       (EvaluationResult.overall_score r1 == EvaluationResult.overall_score r2 ->
        (i1 < i2)%nat)).
Proof.
  intros HF.
  pose proof (Forall2_length _ _ _ HF) as Hlen.
  rewrite enumerate_from_length in Hlen.
  destruct (sort_desc_stable EvaluationResult.overall_score evaluated)
    as (σ & Hperm & Hpos & Hord).
  assert (length σ = length evaluated) as Hσ.
  { by rewrite Hperm, length_seq. }
  assert (forall k r, ranked evaluated !! k = Some r ->
            exists i e, σ !! k = Some i /\ evaluated !! i = Some e /\
              r = EvaluationResult.set_ranking_position (k + 1) e) as Hrank.
  { intros k r Hk. rewrite ranked_lookup in Hk.
    destruct (sort_desc _ evaluated !! k) as [e|] eqn:He; simplify_eq/=.
    destruct (σ !! k) as [i|] eqn:Hi.
    - destruct (Hpos _ _ Hi) as [Heq _]. rewrite He in Heq. eauto.
    - apply lookup_ge_None in Hi. apply lookup_lt_Some in He.
      rewrite sort_desc_length in He. lia. }
  exists σ. split; [by rewrite Hperm, Hlen |].
  split; [by rewrite ranked_length |]. split.
  - intros k r Hk. destruct (Hrank _ _ Hk) as (i & e & Hi & He & ->).
    destruct (Forall2_lookup_r _ _ _ _ _ HF He) as ([i' a] & Ha & Hb).
    apply enumerate_from_lookup in Ha as [-> Ha]. simpl in *.
    destruct Hb as (w1 & w2 & ai & Hev & ->).
    exists i, a, ai. split; [done |]. split; [done |].
    split; [| done]. by exists w1, w2, ai.
  - intros k1 k2 r1 r2 i1 i2 Hk H1 H2 Hi1 Hi2.
    destruct (Hrank _ _ H1) as (j1 & e1 & Hj1 & He1 & ->).
    destruct (Hrank _ _ H2) as (j2 & e2 & Hj2 & He2 & ->).
    simplify_eq. simpl. by eapply Hord.
Qed.

(** ** The single answer route *)

(** C1, as the code has it: whatever the problem and the answer, the single
    answer handler raises.  The one-element list it builds is refused by the
    [min_items=2] bound of [ComparisonRequest], so [compare_answers] is never
    reached and the caller gets the status 500 with the message of the
    validation error. *)
Theorem evaluate_single_answer_always_fails problem answer context w :
  exists msg w',
    ComparisonRequest.new problem
      [AnswerInput.mk answer (Some "single_answer")] (Some "quick") context
    = Raised (ValidationError msg) /\
    evaluate_single_answer problem answer context w
    = (Raised (HTTPException 500 ("Evaluation failed: " ++ msg)), w').
Proof.
  unfold evaluate_single_answer.
  destruct (uuid4_total w) as (rid & w1 & Hu).
  rewrite (bind_run_Ok _ _ _ _ _ Hu).
  eexists _, w1. split; [reflexivity |].
  by rewrite (try_except_run_Raised _ _ w1
    (ValidationError "answers: ensure this value has at least 2 items") w1).
Qed.

(** ** Ranking *)

(** C2: for a request that passes validation, the handler returns results as
    soon as [evaluation_type] is a string, and whenever it returns results
    they are the input candidates in some order [σ], numbered 1 to N, with
    scores descending and equal scores in input order. *)
Theorem ranking_total_sorted_stable
    problem answers evaluation_type context request w :
  ComparisonRequest.new problem answers evaluation_type context = Ok request ->
  (evaluation_type ≠ None ->
   exists resp w', compare_answers request w = (Ok resp, w')) /\
  (forall resp w',
     compare_answers request w = (Ok resp, w') ->
     exists σ : list nat,
       σ ≡ₚ seq 0 (length answers) /\
       length (ComparisonResponse.results resp) = length answers /\
       (forall k r,
          ComparisonResponse.results resp !! k = Some r ->
          EvaluationResult.ranking_position r = (k + 1)%nat /\
          exists i a,
            σ !! k = Some i /\ answers !! i = Some a /\
            EvaluationResult.content r = AnswerInput.content a /\
            EvaluationResult.answer_id r
              = or_else (AnswerInput.id a) ("answer_" ++ pretty i)) /\
       (forall k1 k2 r1 r2 i1 i2,
          (k1 < k2)%nat ->
          ComparisonResponse.results resp !! k1 = Some r1 ->
          ComparisonResponse.results resp !! k2 = Some r2 ->
          σ !! k1 = Some i1 -> σ !! k2 = Some i2 ->
          EvaluationResult.overall_score r2 <= EvaluationResult.overall_score r1 /\
          (EvaluationResult.overall_score r1 == EvaluationResult.overall_score r2 ->
           (i1 < i2)%nat))).
Proof.
  intros Hnew. apply ComparisonRequest_new_Ok in Hnew as [Hlen ->]. split.
  - intros Het. destruct evaluation_type as [et|]; [| done].
    apply (compare_answers_total _ et); [| reflexivity].
    simpl. destruct answers; [simpl in Hlen; lia | done].
  - intros resp w' Hrun.
    apply compare_answers_with_Ok in Hrun
      as (evaluated & HF & _ & Hres & _).
    destruct (ranked_spec _ _ _ HF) as (σ & Hperm & Hl & Hpos & Hord).
    simpl in *. rewrite Hres. exists σ.
    split; [done |]. split; [done |]. split; [| done].
    intros k r Hk. destruct (Hpos _ _ Hk) as (i & a & ai & Hi & Ha & _ & ->).
    split; [done |]. by exists i, a.
Qed.

Lemma ranking_total_sorted_stable_witness :
  (exists resp w', compare_answers gravity_request world0 = (Ok resp, w')) /\
  (forall resp w',
     compare_answers gravity_request world0 = (Ok resp, w') ->
     exists σ : list nat,
       σ ≡ₚ [0; 1]%nat /\
       length (ComparisonResponse.results resp) = 2%nat /\
       forall k r,
         ComparisonResponse.results resp !! k = Some r ->
         EvaluationResult.ranking_position r = (k + 1)%nat).
Proof.
  destruct (ranking_total_sorted_stable "Explain gravity" gravity_answers
              (Some "comprehensive") None gravity_request world0 eq_refl)
    as [Hrun Hprop].
  split; [by apply Hrun |].
  intros resp w' H. destruct (Hprop resp w' H) as (σ & Hperm & Hlen & Hpos & _).
  exists σ. split; [done |]. split; [done |].
  intros k r Hk. by destruct (Hpos k r Hk).
Defined.

(** ** Answer identifiers *)

(** C10: the result of the candidate at input position [i] carries
    ["answer_<i>"] when the candidate's [id] is [None] or the empty string,
    and the candidate's own [id] otherwise. *)
Theorem answer_id_synthesized evaluator request w resp w' :
  compare_answers_with evaluator request w = (Ok resp, w') ->
  exists σ : list nat,
    σ ≡ₚ seq 0 (length (ComparisonRequest.answers request)) /\
    length (ComparisonResponse.results resp)
      = length (ComparisonRequest.answers request) /\
    forall k r,
      ComparisonResponse.results resp !! k = Some r ->
      exists i a,
        σ !! k = Some i /\
        ComparisonRequest.answers request !! i = Some a /\
        EvaluationResult.content r = AnswerInput.content a /\
        (AnswerInput.id a = None \/ AnswerInput.id a = Some "" ->
         EvaluationResult.answer_id r = "answer_" ++ pretty i) /\
        (forall s, AnswerInput.id a = Some s -> s ≠ "" ->
                   EvaluationResult.answer_id r = s).
Proof.
  intros Hrun.
  apply compare_answers_with_Ok in Hrun as (evaluated & HF & _ & Hres & _).
  destruct (ranked_spec _ _ _ HF) as (σ & Hperm & Hl & Hpos & _).
  rewrite Hres. exists σ. split; [done |]. split; [done |].
  intros k r Hk. destruct (Hpos _ _ Hk) as (i & a & ai & Hi & Ha & _ & ->).
  exists i, a. split; [done |]. split; [done |]. split; [done |]. simpl. split.
  - by intros [->| ->].
  - intros s -> Hs. by destruct s.
Qed.

Lemma answer_id_synthesized_witness :
  exists resp w',
    compare_answers anonymous_request world0 = (Ok resp, w') /\
    EvaluationResult.answer_id <$> ComparisonResponse.results resp
      = ["answer_1"; "answer_0"; "c"] /\
    exists σ : list nat,
      σ ≡ₚ [0; 1; 2]%nat /\
      length (ComparisonResponse.results resp) = 3%nat.
Proof.
  eexists _, _. split; [vm_compute; reflexivity |].
  split; [reflexivity |].
  edestruct (answer_id_synthesized evaluate_answer_with_ai anonymous_request
               world0) as (σ & Hperm & Hlen & _);
    [vm_compute; reflexivity |].
  by exists σ.
Defined.

(** ** Scores *)

Lemma results_built evaluator request w resp w' r :
  compare_answers_with evaluator request w = (Ok resp, w') ->
  r ∈ ComparisonResponse.results resp ->
  exists k i a ai w1 w2,
    a ∈ ComparisonRequest.answers request /\
    evaluator (ComparisonRequest.problem request) (AnswerInput.content a)
              (ComparisonRequest.context request) w1 = (Ok ai, w2) /\
    r = EvaluationResult.set_ranking_position (k + 1) (make_result i a ai).
Proof.
  intros Hrun Hr.
  apply compare_answers_with_Ok in Hrun as (evaluated & HF & _ & Hres & _).
  destruct (ranked_spec _ _ _ HF) as (σ & _ & _ & Hpos & _).
  rewrite Hres in Hr. apply list_elem_of_lookup in Hr as [k Hk].
  destruct (Hpos _ _ Hk) as (i & a & ai & _ & Ha & (w1 & w2 & ai' & Hev & Hmk) & ->).
  exists k, i, a, ai', w1, w2. split; [by eapply list_elem_of_lookup_2 |].
  split; [done |]. by rewrite Hmk.
Qed.

(** With any scorer in the first half of the evaluation, the score of a
    returned result is the mean of its archetype scores. *)
Lemma overall_score_mean_any_scorer scorer request w resp w' r :
  compare_answers_with (evaluate_answer_with scorer) request w = (Ok resp, w') ->
  r ∈ ComparisonResponse.results resp ->
  EvaluationResult.overall_score r
  = mean (ArchetypeScore.score <$> EvaluationResult.archetype_scores r).
Proof.
  intros Hrun Hr.
  destruct (results_built _ _ _ _ _ _ Hrun Hr)
    as (k & i & a & ai & w1 & w2 & _ & Hev & ->).
  apply evaluate_answer_with_Ok in Hev as (_ & _ & Hmean & _). by simpl.
Qed.

(** C3: in every result the handler returns, [overall_score] is the mean of
    the scores of its [archetype_scores]. *)
Theorem overall_score_is_mean request w resp w' r :
  compare_answers request w = (Ok resp, w') ->
  r ∈ ComparisonResponse.results resp ->
  EvaluationResult.overall_score r
  = mean (ArchetypeScore.score <$> EvaluationResult.archetype_scores r).
Proof.
  intros Hrun Hr.
  destruct (results_built _ _ _ _ _ _ Hrun Hr)
    as (k & i & a & ai & w1 & w2 & _ & Hev & ->).
  rewrite evaluate_answer_with_ai_eq in Hev.
  apply evaluate_answer_with_Ok in Hev as (_ & _ & Hmean & _). by simpl.
Qed.

Lemma overall_score_is_mean_witness :
  exists resp w',
    compare_answers gravity_request world0 = (Ok resp, w') /\
    Forall (fun r =>
              EvaluationResult.overall_score r
              = mean (ArchetypeScore.score
                        <$> EvaluationResult.archetype_scores r))
           (ComparisonResponse.results resp).
Proof.
  eexists _, _. split; [vm_compute; reflexivity |].
  apply Forall_forall. intros r Hr.
  eapply (overall_score_is_mean gravity_request world0);
    [vm_compute; reflexivity | exact Hr].
Defined.

(** ** The archetype summary of a response *)

Lemma filter_archetype_none a (l : list ArchetypeScore.t) :
  a ∉ ArchetypeScore.archetype <$> l ->
  filter (fun s => ArchetypeScore.archetype s = a) l = [].
Proof.
  induction l as [|s l IH]; csimpl; intros H; [done |].
  rewrite not_elem_of_cons in H. destruct H as [Hs Hl].
  rewrite filter_cons. destruct (decide _) as [E|_]; [by subst | by apply IH].
Qed.

Lemma filter_archetype_unique a (l : list ArchetypeScore.t) :
  NoDup (ArchetypeScore.archetype <$> l) ->
  filter (fun s => ArchetypeScore.archetype s = a) l
  = option_list (head (filter (fun s => ArchetypeScore.archetype s = a) l)).
Proof.
  induction l as [|s l IH]; csimpl; intros H; [done |].
  apply NoDup_cons in H as [Hs Hl]. rewrite filter_cons.
  destruct (decide _) as [E|_]; simpl; [| by apply IH].
  subst a. by rewrite filter_archetype_none.
Qed.

Lemma scores_for_unique a r :
  NoDup (ArchetypeScore.archetype <$> EvaluationResult.archetype_scores r) ->
  scores_for a r = option_list (score_of a r).
Proof.
  intros H. unfold scores_for, score_of.
  rewrite (filter_archetype_unique a _ H). by destruct (head _).
Qed.

Lemma all_scores_for_unique a rs :
  Forall (fun r => NoDup (ArchetypeScore.archetype
                            <$> EvaluationResult.archetype_scores r)) rs ->
  all_scores_for a rs = omap (score_of a) rs.
Proof.
  unfold all_scores_for. induction 1 as [|r rs Hr _ IH]; csimpl; [done |].
  rewrite IH, (scores_for_unique a r Hr). by destruct (score_of a r).
Qed.

Lemma possesses_scores_for a r : possesses r a -> scores_for a r ≠ [].
Proof.
  unfold possesses, scores_for.
  intros (s & -> & Hs)%list_elem_of_fmap.
  assert (s ∈ filter (fun s' => ArchetypeScore.archetype s'
                                = ArchetypeScore.archetype s)
                     (EvaluationResult.archetype_scores r)) as Hin.
  { by apply list_elem_of_filter. }
  intros E. apply fmap_nil_inv in E. rewrite E in Hin. by apply elem_of_nil in Hin.
Qed.

Lemma possessed_all_scores_for a rs r :
  r ∈ rs -> possesses r a -> all_scores_for a rs ≠ [].
Proof.
  intros Hr Hp E. unfold all_scores_for in E.
  apply possesses_scores_for in Hp. apply Hp.
  induction rs as [|r' rs IH]; [by apply elem_of_nil in Hr |].
  csimpl in E. apply app_eq_nil in E as [E1 E2].
  apply elem_of_cons in Hr as [->|Hr]; [done | by apply IH].
Qed.

(** The summary entry of any archetype, with no assumption on the results:
    the mean of all the scores recorded under that name. *)
Lemma archetype_summary_lookup evaluator request w resp w' a :
  compare_answers_with evaluator request w = (Ok resp, w') ->
  ComparisonResponse.archetype_summary resp !! a
  = mean <$> nonempty (all_scores_for a (ComparisonResponse.results resp)).
Proof.
  intros Hrun.
  apply compare_answers_with_Ok in Hrun as (evaluated & _ & _ & Hres & _ & Hsum & _).
  by rewrite Hsum, Hres, lookup_fmap, collect_scores_lookup.
Qed.

(** C8: when no result lists an archetype twice, the summary holds, for every
    archetype [a] that some result possesses, the mean of the scores for [a]
    of exactly the results that possess it. *)
Theorem archetype_summary_is_mean evaluator request w resp w' a :
  compare_answers_with evaluator request w = (Ok resp, w') ->
  Forall (fun r => NoDup (ArchetypeScore.archetype
                            <$> EvaluationResult.archetype_scores r))
         (ComparisonResponse.results resp) ->
  (exists r, r ∈ ComparisonResponse.results resp /\ possesses r a) ->
  ComparisonResponse.archetype_summary resp !! a
  = Some (mean (omap (score_of a) (ComparisonResponse.results resp))).
Proof.
  intros Hrun Hnd (r & Hr & Hp).
  rewrite (archetype_summary_lookup _ _ _ _ _ a Hrun).
  pose proof (possessed_all_scores_for a _ r Hr Hp) as Hne.
  rewrite (all_scores_for_unique a _ Hnd) in *.
  by destruct (omap _ _).
Qed.

(** The results of the handler as shipped always list the five archetypes,
    once each, so for it the summary is the mean over all the candidates. *)
Lemma compare_answers_archetypes request w resp w' r :
  compare_answers request w = (Ok resp, w') ->
  r ∈ ComparisonResponse.results resp ->
  ArchetypeScore.archetype <$> EvaluationResult.archetype_scores r = archetypes.
Proof.
  intros Hrun Hr.
  destruct (results_built _ _ _ _ _ _ Hrun Hr)
    as (k & i & b & ai & w1 & w2 & _ & Hev & ->).
  rewrite evaluate_answer_with_ai_eq in Hev.
  apply evaluate_answer_with_Ok in Hev as ((w3 & Hs) & _).
  destruct (mock_scorer_total (ComparisonRequest.problem request)
              (AnswerInput.content b) (ComparisonRequest.context request) w1)
    as (l & w4 & Hl & Ha & _).
  rewrite Hl in Hs. injection Hs as Hs _. simpl. by rewrite <- Hs.
Qed.

Lemma compare_answers_summary request w resp w' a :
  compare_answers request w = (Ok resp, w') ->
  a ∈ archetypes ->
  length (omap (score_of a) (ComparisonResponse.results resp))
    = length (ComparisonRequest.answers request) /\
  ComparisonResponse.archetype_summary resp !! a
    = Some (mean (omap (score_of a) (ComparisonResponse.results resp))).
Proof.
  intros Hrun Ha.
  pose proof (fun r => compare_answers_archetypes _ _ _ _ r Hrun) as Harch.
  assert (Forall (fun r => NoDup (ArchetypeScore.archetype
                                    <$> EvaluationResult.archetype_scores r))
                 (ComparisonResponse.results resp)) as Hnd.
  { apply Forall_forall. intros r Hr. rewrite (Harch r Hr).
    refine (bool_decide_unpack _ _). by vm_compute. }
  assert (forall r, r ∈ ComparisonResponse.results resp ->
                    is_Some (score_of a r)) as Hsome.
  { intros r Hr. pose proof (Harch r Hr) as Hr'.
    assert (scores_for a r ≠ []) as Hne.
    { apply possesses_scores_for. unfold possesses. by rewrite Hr'. }
    rewrite (scores_for_unique a r) in Hne by (by eapply Forall_forall in Hnd).
    by destruct (score_of a r). }
  split.
  - pose proof Hrun as Hlen.
    apply compare_answers_with_Ok in Hlen as (evaluated & HF & _ & Hres & _).
    destruct (ranked_spec _ _ _ HF) as (σ & _ & <- & _). rewrite <- Hres.
    clear -Hsome. induction (ComparisonResponse.results resp) as [|r rs IH];
      csimpl; [done |].
    destruct (Hsome r) as [q ->]; [left |]. simpl.
    rewrite IH; [done |]. intros r' Hr'. apply Hsome. by right.
  - rewrite (archetype_summary_lookup _ _ _ _ _ a Hrun).
    rewrite (all_scores_for_unique a _ Hnd).
    pose proof Hrun as Hne.
    apply compare_answers_with_Ok in Hne as (evaluated & _ & Hne & Hres & _).
    destruct (ComparisonResponse.results resp) as [|r rs] eqn:E.
    + apply (f_equal length) in Hres. rewrite ranked_length in Hres.
      by destruct evaluated.
    + csimpl. destruct (Hsome r) as [q ->]; [left | done].
Qed.

Lemma archetype_summary_is_mean_witness :
  exists resp w',
    compare_answers_with (evaluate_answer_with uneven_scorer)
                         gravity_request world0 = (Ok resp, w') /\
    omap (score_of "accuracy") (ComparisonResponse.results resp) = [0.7] /\
    ComparisonResponse.archetype_summary resp !! "accuracy"
      = Some (mean (omap (score_of "accuracy")
                         (ComparisonResponse.results resp))).
Proof.
  eexists _, _. split; [vm_compute; reflexivity |].
  split; [reflexivity |].
  eapply (archetype_summary_is_mean (evaluate_answer_with uneven_scorer)
            gravity_request world0).
  - vm_compute; reflexivity.
  - refine (bool_decide_unpack _ _). vm_compute. exact I.
  - eexists. split; [apply list_elem_of_here |].
    unfold possesses. simpl. set_solver.
Defined.

(** ** Request validation *)

(** C4, as the code has it: a request with fewer than 2 or more than 10
    answers is refused by validation, before the handler and so before any
    evaluation, and nothing of the process state is consumed; a request with
    2 to 10 answers is accepted whatever the strings it carries, the empty
    problem and empty contents included, and is answered as soon as
    [evaluation_type] is a string. *)
Theorem request_validation problem answers evaluation_type context w :
  ((length answers < 2)%nat \/ (10 < length answers)%nat ->
   exists msg,
     post_compare problem answers evaluation_type context w
     = (Raised (ValidationError msg), w)) /\
  ((2 <= length answers <= 10)%nat ->
   ComparisonRequest.new problem answers evaluation_type context
     = Ok (ComparisonRequest.mk problem answers evaluation_type context) /\
   (evaluation_type ≠ None ->
    exists resp w',
      post_compare problem answers evaluation_type context w = (Ok resp, w'))).
Proof.
  unfold post_compare, ComparisonRequest.new. split.
  - intros [H|H].
    + apply Nat.ltb_lt in H. rewrite H. by eexists.
    + apply Nat.ltb_lt in H. rewrite H.
      destruct (length answers <? 2)%nat; by eexists.
  - intros [H1 H2].
    apply Nat.ltb_ge in H1. apply Nat.ltb_ge in H2. rewrite H1, H2.
    split; [done |]. intros Het.
    destruct evaluation_type as [et|]; [| done].
    apply (compare_answers_total _ et); [| done].
    simpl. apply Nat.ltb_ge in H1. destruct answers; [simpl in H1; lia | done].
Qed.

Lemma request_validation_witness :
  (exists msg,
     post_compare "Explain gravity" one_answer (Some "comprehensive") None world0
     = (Raised (ValidationError msg), world0)) /\
  (exists msg,
     post_compare "Explain gravity" eleven_answers (Some "comprehensive") None
                  world0
     = (Raised (ValidationError msg), world0)) /\
  (exists resp w',
     post_compare "Explain gravity" gravity_answers (Some "comprehensive") None
                  world0 = (Ok resp, w')) /\
  (exists resp w',
     post_compare "Explain gravity" ten_answers (Some "comprehensive") None
                  world0 = (Ok resp, w')).
Proof.
  split; [| split; [| split]].
  - apply (request_validation "Explain gravity" one_answer). left. simpl. lia.
  - apply (request_validation "Explain gravity" eleven_answers). right. simpl. lia.
  - apply (request_validation "Explain gravity" gravity_answers);
      [simpl; lia | discriminate].
  - apply (request_validation "Explain gravity" ten_answers);
      [simpl; lia | discriminate].
Defined.

(** C4, as the claim has it, fails: a request whose problem and contents are
    all empty strings is accepted and answered. *)
Lemma empty_strings_are_accepted :
  exists resp w',
    post_compare "" [AnswerInput.mk "" None; AnswerInput.mk "" None]
                 (Some "comprehensive") None world0 = (Ok resp, w') /\
    ComparisonResponse.problem resp = "" /\
    EvaluationResult.content <$> ComparisonResponse.results resp = [""; ""].
Proof. eexists _, _. split; [vm_compute; reflexivity |]. by split. Qed.

(** ** The best answer and the empty list *)

Lemma compare_answers_with_empty evaluator request w :
  ComparisonRequest.answers request = [] ->
  exists w',
    compare_answers_with evaluator request w
    = (Raised (HTTPException 500 "Evaluation failed: division by zero"), w').
Proof.
  intros Hnil. rewrite compare_answers_with_eq, Hnil.
  destruct (uuid4_total w) as (rid & w1 & Hu).
  rewrite (bind_run_Ok _ _ _ _ _ Hu).
  destruct (time_time_total w1) as (t0 & w2 & Ht).
  rewrite (bind_run_Ok _ _ _ _ _ Ht).
  exists w2.
  by rewrite (try_except_run_Raised _ _ w2 ZeroDivisionError w2).
Qed.



(** ** Failures of the evaluator *)

Lemma enumerate_from_lookup_Some {A} s (l : list A) k x :
  l !! k = Some x -> enumerate_from s l !! k = Some ((s + k)%nat, x).
Proof.
  revert s k. induction l as [|y l IH]; intros s k; [done |].
  destruct k as [|k]; simpl.
  - intros [= ->]. by rewrite Nat.add_0_r.
  - intros H. rewrite (IH (S s) k H). do 2 f_equal. lia.
Qed.

(** When the loop completed, the evaluator answered for every candidate. *)
Lemma built_answered evaluator request evaluated a :
  Forall2 (built evaluator request)
          (enumerate_from 0 (ComparisonRequest.answers request)) evaluated ->
  a ∈ ComparisonRequest.answers request ->
  exists w1 w2 ai,
    evaluator (ComparisonRequest.problem request) (AnswerInput.content a)
              (ComparisonRequest.context request) w1 = (Ok ai, w2).
Proof.
  intros HF [k Hk]%list_elem_of_lookup.
  apply (enumerate_from_lookup_Some 0) in Hk.
  destruct (Forall2_lookup_l _ _ _ _ _ HF Hk) as (r & _ & w1 & w2 & ai & Hev & _).
  eauto.
Qed.

(** C5, as the code has it: when the evaluator cannot answer for one of the
    candidates, the handler returns no response; it raises the status 500
    whose detail is ["Evaluation failed: "] followed by the message of an
    exception the evaluator raised, and nothing else: the evaluator is given
    the content only, and the detail does not name the candidate. *)
Theorem evaluator_failure_aborts evaluator request w a :
  a ∈ ComparisonRequest.answers request ->
  (forall w1, exists e w2,
     evaluator (ComparisonRequest.problem request) (AnswerInput.content a)
               (ComparisonRequest.context request) w1 = (Raised e, w2)) ->
  exists e0 w',
    compare_answers_with evaluator request w
    = (Raised (HTTPException 500 ("Evaluation failed: " ++ str e0)), w') /\
    exists b w1,
      b ∈ ComparisonRequest.answers request /\
      evaluator (ComparisonRequest.problem request) (AnswerInput.content b)
                (ComparisonRequest.context request) w1 = (Raised e0, w').
Proof.
  intros Ha Hfail.
  assert (forall evaluated,
            ¬ Forall2 (built evaluator request)
                (enumerate_from 0 (ComparisonRequest.answers request)) evaluated)
    as Hno.
  { intros evaluated HF.
    destruct (built_answered _ _ _ a HF Ha) as (w1 & w2 & ai & Hev).
    destruct (Hfail w1) as (e & w3 & He). congruence. }
  destruct (compare_answers_with evaluator request w) as [[resp|e] w'] eqn:Hrun.
  - apply compare_answers_with_Ok in Hrun as (evaluated & HF & _).
    by destruct (Hno evaluated).
  - apply compare_answers_with_Raised in Hrun
      as (e0 & -> & [(b & w1 & Hb & He)|(evaluated & HF & _)]).
    + exists e0, w'. split; [done |]. by exists b, w1.
    + by destruct (Hno evaluated).
Qed.

Lemma evaluator_failure_aborts_witness :
  exists e0 w',
    compare_answers_with failing_evaluator gravity_request world0
    = (Raised (HTTPException 500 ("Evaluation failed: " ++ str e0)), w').
Proof.
  destruct (evaluator_failure_aborts failing_evaluator gravity_request world0
              (AnswerInput.mk "Gravity is a force." (Some "b")))
    as (e0 & w' & Hrun & _).
  - unfold gravity_request, gravity_answers. simpl. set_solver.
  - intros w1. by exists (RuntimeError "timeout"), w1.
  - by exists e0, w'.
Defined.

(** C5, as the claim has it, fails: the evaluator fails for candidate ["b"],
    and the error that reaches the caller does not mention ["b"]. *)
Lemma failure_does_not_name_the_candidate :
  exists w',
    compare_answers_with failing_evaluator gravity_request world0
    = (Raised (HTTPException 500 "Evaluation failed: timeout"), w') /\
    contains "b" "Evaluation failed: timeout" = false.
Proof. eexists. split; [vm_compute; reflexivity | reflexivity]. Qed.

(** ** What the scorer returns *)

(** C7, as the code has it: the scores a scorer returns are not checked.
    Every returned result carries, unchanged, a list the scorer returned for
    its content; whatever the number and the values of the scores, as long as
    the scorer returns a non-empty list for every candidate the comparison
    succeeds; and the evaluator of the source always answers, with its
    scores capped at 1 by [min] and nothing said about it. *)
Theorem scorer_output_is_not_validated scorer request w :
  (forall resp w' r,
     compare_answers_with (evaluate_answer_with scorer) request w
       = (Ok resp, w') ->
     r ∈ ComparisonResponse.results resp ->
     exists w1 w2,
       scorer (ComparisonRequest.problem request) (EvaluationResult.content r)
              (ComparisonRequest.context request) w1
       = (Ok (EvaluationResult.archetype_scores r), w2)) /\
  (forall et,
     ComparisonRequest.answers request ≠ [] ->
     ComparisonRequest.evaluation_type request = Some et ->
     (forall a w1, a ∈ ComparisonRequest.answers request ->
        exists l w2,
          scorer (ComparisonRequest.problem request) (AnswerInput.content a)
                 (ComparisonRequest.context request) w1 = (Ok l, w2) /\
          l ≠ []) ->
     exists resp w',
       compare_answers_with (evaluate_answer_with scorer) request w
       = (Ok resp, w')) /\
  (forall problem answer context w1,
     exists ai w2,
       evaluate_answer_with_ai problem answer context w1 = (Ok ai, w2) /\
       Forall (fun s => ArchetypeScore.score s <= 1)
              (AiResult.archetype_scores ai)).
Proof.
  split; [| split].
  - intros resp w' r Hrun Hr.
    destruct (results_built _ _ _ _ _ _ Hrun Hr)
      as (k & i & a & ai & w1 & w2 & _ & Hev & ->).
    apply evaluate_answer_with_Ok in Hev as ((w3 & Hs) & _). simpl. eauto.
  - intros et Hne Het Hs.
    apply (compare_answers_with_total _ _ et); [done | done |].
    intros a w1 Ha. destruct (Hs a w1 Ha) as (l & w2 & Hl & Hnil).
    by eapply evaluate_answer_with_total.
  - intros problem answer context w1.
    destruct (evaluate_answer_with_ai_total problem answer context w1)
      as (ai & w2 & Hev).
    exists ai, w2. split; [done |].
    rewrite evaluate_answer_with_ai_eq in Hev.
    apply evaluate_answer_with_Ok in Hev as ((w3 & Hs) & _).
    destruct (mock_scorer_total problem answer context w1)
      as (l & w4 & Hl & _ & Hle).
    rewrite Hl in Hs. by injection Hs as <- _.
Qed.

Lemma scorer_output_is_not_validated_witness :
  (exists resp w',
     compare_answers_with (evaluate_answer_with out_of_range_scorer)
                          gravity_request world0 = (Ok resp, w')) /\
  (exists ai w2,
     evaluate_answer_with_ai "Explain gravity"
       "Gravity pulls masses together because of spacetime curvature." None
       (mkWorld [0.99; 0.99] [] [] []) = (Ok ai, w2) /\
     ArchetypeScore.score <$> head (AiResult.archetype_scores ai) = Some 1.0 /\
     Forall (fun s => ArchetypeScore.score s <= 1)
            (AiResult.archetype_scores ai)).
Proof.
  pose proof (scorer_output_is_not_validated out_of_range_scorer
                gravity_request world0) as (_ & Hrun & _).
  pose proof (scorer_output_is_not_validated mock_scorer gravity_request world0)
    as (_ & _ & Hmock).
  split.
  - apply (Hrun "comprehensive"); [done | done |].
    intros a w1 _. by eexists _, _.
  - destruct (Hmock "Explain gravity"
       "Gravity pulls masses together because of spacetime curvature." None
       (mkWorld [0.99; 0.99] [] [] [])) as (ai & w2 & Hl & Hle).
    exists ai, w2. split; [done |]. split; [| done].
    vm_compute in Hl. by injection Hl as <- <-.
Defined.

(** C7, as the claim has it, fails: with a scorer that returns a single
    archetype and the score 1.5 the comparison succeeds, and the results
    carry that score. *)
Lemma out_of_range_scores_are_returned :
  exists resp w',
    compare_answers_with (evaluate_answer_with out_of_range_scorer)
                         gravity_request world0 = (Ok resp, w') /\
    EvaluationResult.archetype_scores <$> ComparisonResponse.results resp
    = [[ArchetypeScore.mk "clarity" 1.5 "stub"];
       [ArchetypeScore.mk "clarity" 1.5 "stub"]] /\
    ¬ (1.5 <= 1).
Proof.
  eexists _, _. split; [vm_compute; reflexivity |].
  split; [reflexivity |]. by compute.
Qed.

(** ** Two runs on the same request *)

Lemma ranked_without_suggestions l :
  without_suggestions <$> ranked l = ranked (without_suggestions <$> l).
Proof.
  unfold ranked.
  rewrite <- (sort_desc_fmap EvaluationResult.overall_score without_suggestions).
  by rewrite imap_fmap, fmap_imap.
Qed.

Lemma all_scores_for_without_suggestions a l :
  all_scores_for a (without_suggestions <$> l) = all_scores_for a l.
Proof. unfold all_scores_for. by rewrite <- list_fmap_compose. Qed.

Lemma collect_scores_without_suggestions l :
  collect_scores (without_suggestions <$> l) = collect_scores l.
Proof.
  apply map_eq. intros a.
  by rewrite !collect_scores_lookup, all_scores_for_without_suggestions.
Qed.

Section PureScorer.
Context (f : string -> string -> option string -> list ArchetypeScore.t).

Lemma pure_built request ia r :
  built (evaluate_answer_with (pure_scorer f)) request ia r ->
  without_suggestions r = pure_result f request ia /\
  two_suggestions (EvaluationResult.improvement_suggestions r).
Proof.
  intros (w1 & w2 & ai & Hev & ->).
  apply evaluate_answer_with_Ok in Hev
    as ((w3 & Hs) & _ & Hmean & Hst & Hwk & Hsug).
  injection Hs as Hl _. split; [| done].
  unfold without_suggestions, pure_result, make_result. simpl.
  by rewrite Hmean, Hst, Hwk, <- Hl.
Qed.

Lemma pure_evaluated request (enum : list (nat * AnswerInput.t)) evaluated :
  Forall2 (built (evaluate_answer_with (pure_scorer f)) request) enum evaluated ->
  without_suggestions <$> evaluated = pure_result f request <$> enum.
Proof.
  induction 1 as [|ia r enum evaluated Hb _ IH]; csimpl; [done |].
  apply pure_built in Hb as [-> _]. by rewrite IH.
Qed.

(** C9, as the code has it: with the scores a function of the inputs, two
    runs on one request return results that agree in every field but
    [improvement_suggestions], which in each run is some pair of distinct
    suggestions of the pool; [best_answer] and the archetype summary
    agree as well. *)
Theorem runs_agree_up_to_suggestions request w1 w2 resp1 resp2 w1' w2' :
  compare_answers_with (evaluate_answer_with (pure_scorer f)) request w1
    = (Ok resp1, w1') ->
  compare_answers_with (evaluate_answer_with (pure_scorer f)) request w2
    = (Ok resp2, w2') ->
  without_suggestions <$> ComparisonResponse.results resp1
    = without_suggestions <$> ComparisonResponse.results resp2 /\
  Forall (fun r => two_suggestions (EvaluationResult.improvement_suggestions r))
         (ComparisonResponse.results resp1 ++ ComparisonResponse.results resp2) /\
  ComparisonResponse.best_answer resp1 = ComparisonResponse.best_answer resp2 /\
  ComparisonResponse.archetype_summary resp1
    = ComparisonResponse.archetype_summary resp2.
Proof.
  intros Hrun1 Hrun2.
  assert (Forall (fun r => two_suggestions
                             (EvaluationResult.improvement_suggestions r))
                 (ComparisonResponse.results resp1
                    ++ ComparisonResponse.results resp2)) as Hsug.
  { apply Forall_app. split; apply Forall_forall; intros r Hr.
    - destruct (results_built _ _ _ _ _ _ Hrun1 Hr)
        as (k & i & a & ai & u1 & u2 & _ & Hev & ->).
      by apply evaluate_answer_with_Ok in Hev as (_ & _ & _ & _ & _ & Hs).
    - destruct (results_built _ _ _ _ _ _ Hrun2 Hr)
        as (k & i & a & ai & u1 & u2 & _ & Hev & ->).
      by apply evaluate_answer_with_Ok in Hev as (_ & _ & _ & _ & _ & Hs). }
  apply compare_answers_with_Ok in Hrun1
    as (ev1 & HF1 & _ & Hres1 & Hbest1 & Hsum1 & _).
  apply compare_answers_with_Ok in Hrun2
    as (ev2 & HF2 & _ & Hres2 & Hbest2 & Hsum2 & _).
  assert (without_suggestions <$> ranked ev1
          = without_suggestions <$> ranked ev2) as Heq.
  { rewrite !ranked_without_suggestions.
    by rewrite (pure_evaluated _ _ _ HF1), (pure_evaluated _ _ _ HF2). }
  split; [by rewrite Hres1, Hres2 |]. split; [done |]. split.
  - assert (forall l, head (EvaluationResult.answer_id <$> l)
                      = head (EvaluationResult.answer_id
                                <$> (without_suggestions <$> l))) as Hhead.
    { intros l. by rewrite <- list_fmap_compose. }
    rewrite Hhead, Heq, <- Hhead, Hbest2 in Hbest1. by injection Hbest1.
  - rewrite Hsum1, Hsum2.
    rewrite <- (collect_scores_without_suggestions (ranked ev1)), Heq.
    by rewrite collect_scores_without_suggestions.
Qed.
End PureScorer.

Lemma runs_agree_up_to_suggestions_witness :
  exists resp1 w1' resp2 w2',
    compare_answers_with (evaluate_answer_with stub_scorer) gravity_request world0
      = (Ok resp1, w1') /\
    compare_answers_with (evaluate_answer_with stub_scorer) gravity_request world1
      = (Ok resp2, w2') /\
    without_suggestions <$> ComparisonResponse.results resp1
      = without_suggestions <$> ComparisonResponse.results resp2 /\
    ComparisonResponse.best_answer resp1 = ComparisonResponse.best_answer resp2.
Proof.
  eexists _, _, _, _.
  split; [vm_compute; reflexivity |]. split; [vm_compute; reflexivity |].
  edestruct (runs_agree_up_to_suggestions stub_scores gravity_request
               world0 world1) as (Hres & _ & Hbest & _);
    [vm_compute; reflexivity | vm_compute; reflexivity |].
  by split.
Defined.

(** C9, as the claim has it, fails: with the deterministic scorer
    [stub_scorer], two runs on the same request return different
    [improvement_suggestions], so different results. *)
Lemma suggestions_differ_between_runs :
  exists resp1 w1' resp2 w2',
    compare_answers_with (evaluate_answer_with stub_scorer) gravity_request world0
      = (Ok resp1, w1') /\
    compare_answers_with (evaluate_answer_with stub_scorer) gravity_request world1
      = (Ok resp2, w2') /\
    EvaluationResult.improvement_suggestions <$> ComparisonResponse.results resp1
      = [["Include counterarguments or alternative views";
          "Strengthen logical connections"];
         ["Provide more context or background";
          "Add more specific examples"]] /\
    EvaluationResult.improvement_suggestions <$> ComparisonResponse.results resp2
      = [["Add more specific examples";
          "Provide more context or background"];
         ["Strengthen logical connections";
          "Include counterarguments or alternative views"]] /\
    ComparisonResponse.results resp1 ≠ ComparisonResponse.results resp2.
Proof.
  eexists _, _, _, _.
  split; [vm_compute; reflexivity |]. split; [vm_compute; reflexivity |].
  split; [reflexivity |]. split; [reflexivity |].
  simpl. intros H. discriminate H.
Qed.

(** ** The scenario of the specification *)

(** Two answers, a scorer that gives 0.9 on every archetype to the first and
    0.5 to the second: the first is ranked 1 with score 0.9, the second 2
    with 0.5, every archetype averages 0.7 and the best answer is the first. *)
Example gravity_scenario :
  exists resp w',
    compare_answers_with (evaluate_answer_with stub_scorer)
                         gravity_request world0 = (Ok resp, w') /\
    (fun r => (EvaluationResult.answer_id r,
               EvaluationResult.ranking_position r))
      <$> ComparisonResponse.results resp = [("a", 1%nat); ("b", 2%nat)] /\
    Forall2 Qeq (EvaluationResult.overall_score
                   <$> ComparisonResponse.results resp) [0.9; 0.5] /\
    ComparisonResponse.best_answer resp = "a" /\
    Forall (fun a => exists q,
              ComparisonResponse.archetype_summary resp !! a = Some q /\
              q == 0.7)
           archetypes.
Proof.
  eexists _, _. split; [vm_compute; reflexivity |].
  split; [reflexivity |].
  split; [by repeat constructor |].
  split; [reflexivity |].
  repeat constructor; eexists; (split; [vm_compute; reflexivity | reflexivity]).
Qed.

Example answer_id_format :
  (fun i => "answer_" ++ pretty i) <$> [0; 7; 10; 123]%nat
  = ["answer_0"; "answer_7"; "answer_10"; "answer_123"].
Proof. reflexivity. Qed.

(** * More of the handler: effects, scores, identifiers and routes *)

(** ** What a computation consumes *)

Lemma consumed_0 w : consumed 0 0 0 0 w = w.
Proof. by destruct w. Qed.

Lemma consumed_consumed n m u c n' m' u' c' w :
  consumed n m u c (consumed n' m' u' c' w)
  = consumed (n' + n) (m' + m) (u' + u) (c' + c) w.
Proof. unfold consumed. simpl. by rewrite !drop_drop. Qed.

Lemma consumed_eq n m u c n' m' u' c' w :
  n = n' -> m = m' -> u = u' -> c = c' ->
  consumed n m u c w = consumed n' m' u' c' w.
Proof. by intros -> -> -> ->. Qed.

Lemma random_random_run w :
  random_random w = (Ok (default 0 (head (random_tape w))), consumed 1 0 0 0 w).
Proof. destruct w as [[|r rt] bt ut ct]; reflexivity. Qed.

Lemma random_uniform_run a b w :
  random_uniform a b w
  = (Ok (a + (b - a) * default 0 (head (random_tape w))), consumed 1 0 0 0 w).
Proof.
  unfold random_uniform. by rewrite (bind_run_Ok _ _ _ _ _ (random_random_run w)).
Qed.

Lemma randbelow_run n w :
  randbelow n w
  = (Ok (default O (head (randbelow_tape w)) mod n)%nat, consumed 0 1 0 0 w).
Proof.
  destruct w as [rt [|b bt] ut ct]; [| reflexivity].
  unfold randbelow, consumed. simpl. by rewrite Nat.Div0.mod_0_l.
Qed.

Lemma uuid4_run w :
  uuid4 w = (Ok (default "" (head (uuid_tape w))), consumed 0 0 1 0 w).
Proof. destruct w as [rt bt [|u ut] ct]; reflexivity. Qed.

Lemma time_time_run w :
  time_time w = (Ok (default 0 (head (clock_tape w))), consumed 0 0 0 1 w).
Proof. destruct w as [rt bt ut [|c ct]]; reflexivity. Qed.

Lemma random_sample_suggestions_run w :
  exists x y,
    random_sample suggestions 2 w = (Ok [x; y], consumed 0 2 0 0 w) /\
    x ≠ y /\ x ∈ suggestions /\ y ∈ suggestions.
Proof.
  unfold random_sample. simpl.
  rewrite (bind_run_Ok _ _ _ _ _ (randbelow_run 4 w)).
  set (j0 := (default O (head (randbelow_tape w)) mod 4)%nat).
  assert (j0 < 4)%nat as Hj0 by (apply Nat.mod_upper_bound; lia).
  set (w1 := consumed 0 1 0 0 w).
  set (j1 := (default O (head (randbelow_tape w1)) mod 3)%nat).
  assert (j1 < 3)%nat as Hj1 by (apply Nat.mod_upper_bound; lia).
  assert (randbelow 3 w1 = (Ok j1, consumed 0 2 0 0 w)) as H1.
  { unfold j1. rewrite randbelow_run. unfold w1. by rewrite consumed_consumed. }
  clearbody j0 j1.
  assert (j0 = 0 \/ j0 = 1 \/ j0 = 2 \/ j0 = 3)%nat as Hc0 by lia.
  assert (j1 = 0 \/ j1 = 1 \/ j1 = 2)%nat as Hc1 by lia.
  destruct_or!; subst j0 j1; simpl; rewrite (bind_run_Ok _ _ _ _ _ H1); simpl;
    eexists _, _; (split; [reflexivity |]);
    (split; [discriminate |]); unfold suggestions; set_solver.
Qed.

(** ** The evaluation leaves the identifiers and the clock alone *)

Lemma reframe_id w : reframe (uuid_tape w) (clock_tape w) w = w.
Proof. by destruct w. Qed.

Lemma framed_ret {A} (a : A) : framed (mret a : M A).
Proof. by intros u k w. Qed.

Lemma framed_raise {A} e : framed (raise e : M A).
Proof. by intros u k w. Qed.

Lemma framed_bind {A B} (m : M A) (k : A -> M B) :
  framed m -> (forall a, framed (k a)) -> framed (m ≫= k).
Proof.
  intros Hm Hk u c w. unfold mbind, M_bind, bind. rewrite Hm.
  destruct (m w) as [[a|e] w1]; simpl; [apply Hk | done].
Qed.

Lemma framed_random_uniform a b : framed (random_uniform a b).
Proof. intros u c w. by rewrite !random_uniform_run. Qed.

Lemma framed_randbelow n : framed (randbelow n).
Proof. intros u c w. by rewrite !randbelow_run. Qed.

Lemma framed_truediv x n : framed (truediv x n).
Proof. destruct n; [apply framed_raise | apply (framed_ret (x / _))]. Qed.

Lemma framed_sample_rounds {A} n i k (pool acc : list A) :
  framed (sample_rounds n i k pool acc).
Proof.
  revert i pool acc. induction k as [|k IH]; intros i pool acc; simpl.
  - apply framed_ret.
  - apply framed_bind; [apply framed_randbelow |]. intros j.
    destruct (pool !! j), (pool !! (n - i - 1)%nat);
      first [apply IH | apply framed_raise].
Qed.

Lemma framed_random_sample {A} (population : list A) k :
  framed (random_sample population k).
Proof.
  unfold random_sample. destruct (_ <? _)%nat;
    [apply framed_raise | apply framed_sample_rounds].
Qed.

Lemma framed_evaluate_answer_with_ai problem answer context :
  framed (evaluate_answer_with_ai problem answer context).
Proof.
  unfold evaluate_answer_with_ai.
  repeat (apply framed_bind; [first [apply framed_random_uniform
                                    | apply framed_truediv
                                    | apply framed_random_sample] | intros ?]).
  apply framed_ret.
Qed.

Lemma evaluate_answer_with_ai_run problem answer context w :
  exists ai,
    evaluate_answer_with_ai problem answer context w
    = (Ok ai, consumed 6 2 0 0 w).
Proof.
  unfold evaluate_answer_with_ai.
  rewrite (bind_run_Ok _ _ _ _ _ (random_uniform_run _ _ _)).
  rewrite (bind_run_Ok _ _ _ _ _ (random_uniform_run _ _ _)).
  rewrite (bind_run_Ok _ _ _ _ _ (random_uniform_run _ _ _)).
  rewrite (bind_run_Ok _ _ _ _ _ (random_uniform_run _ _ _)).
  rewrite (bind_run_Ok _ _ _ _ _ (random_uniform_run _ _ _)).
  rewrite (bind_run_Ok _ _ _ _ _ (random_uniform_run _ _ _)).
  rewrite !consumed_consumed.
  cbn [length truediv].
  rewrite (bind_run_Ok _ _ _ _ _ (mret_run _ _)).
  destruct (random_sample_suggestions_run (consumed 6 0 0 0 w))
    as (x & y & Hs & _).
  rewrite (bind_run_Ok _ _ _ _ _ Hs), consumed_consumed. by eexists.
Qed.

(** ** The run of the handler, in full *)

Lemma head_drop_nth {A} (d : A) i (l : list A) :
  default d (head (drop i l)) = nth i l d.
Proof.
  revert l. induction i as [|i IH]; intros [|x l]; simpl; done.
Qed.

Lemma finish_run request request_id start_time evaluated w :
  evaluated ≠ [] ->
  finish request request_id start_time evaluated w
  = (response_of request request_id start_time
       (nth 0 (clock_tape w) 0) (nth 1 (clock_tape w) 0) evaluated,
     consumed 0 0 0 2 w).
Proof.
  intros Hne. unfold finish.
  assert (length (ranked evaluated) ≠ O) as Hn.
  { rewrite ranked_length. by destruct evaluated. }
  rewrite (bind_run_Ok _ _ _ _ _ (truediv_pos _ _ w Hn)).
  rewrite (bind_run_Ok _ _ _ _ _ (average_scores_collect _ _)).
  rewrite (bind_run_Ok _ _ _ _ _ (time_time_run _)).
  unfold datetime_now. rewrite (bind_run_Ok _ _ _ _ _ (time_time_run _)).
  rewrite consumed_consumed. unfold lift, response_of. simpl.
  rewrite <- (head_drop_nth 0 1).
  replace (Py.sum (EvaluationResult.confidence <$> ranked evaluated)
           / inject_Z (Z.of_nat (length (ranked evaluated))))
    with (mean (EvaluationResult.confidence <$> ranked evaluated))
    by (unfold mean; by rewrite length_fmap).
  f_equal.
  destruct (ranked evaluated); simpl; [done |].
  by destruct (clock_tape w).
Qed.

Lemma loop_run request l start acc w :
  exists new,
    for_enumerate start l (evaluation_step evaluate_answer_with_ai request) acc w
    = (Ok (acc ++ new)%list, consumed (6 * length l) (2 * length l) 0 0 w) /\
    length new = length l /\
    forall k a,
      l !! k = Some a ->
      exists ai,
        (evaluate_answer_with_ai (ComparisonRequest.problem request)
           (AnswerInput.content a) (ComparisonRequest.context request)
           (consumed (6 * k) (2 * k) 0 0 w)).1 = Ok ai /\
        new !! k = Some (make_result (start + k) a ai).
Proof.
  revert start acc w. induction l as [|a l IH]; intros start acc w.
  - exists []. cbn [for_enumerate length]. rewrite app_nil_r, consumed_0.
    by split.
  - cbn [for_enumerate].
    destruct (evaluate_answer_with_ai_run (ComparisonRequest.problem request)
                (AnswerInput.content a) (ComparisonRequest.context request) w)
      as (ai & Hev).
    assert (evaluation_step evaluate_answer_with_ai request start a acc w
            = (Ok (acc ++ [make_result start a ai])%list, consumed 6 2 0 0 w))
      as Hstep.
    { unfold evaluation_step. by rewrite (bind_run_Ok _ _ _ _ _ Hev). }
    rewrite (bind_run_Ok _ _ _ _ _ Hstep).
    destruct (IH (S start) (acc ++ [make_result start a ai])%list
                 (consumed 6 2 0 0 w)) as (new & Hrun & Hlen & Hk).
    exists (make_result start a ai :: new).
    rewrite Hrun, consumed_consumed, <- app_assoc. cbn [length].
    split; [do 3 f_equal; lia |]. split; [by rewrite Hlen |].
    intros [|k] b Hb; simpl in Hb.
    + injection Hb as <-. exists ai. rewrite consumed_0, Hev.
      split; [done |]. simpl. do 2 f_equal. lia.
    + destruct (Hk k b Hb) as (ai' & Hev' & Hnew).
      exists ai'. rewrite consumed_consumed in Hev'.
      split.
      * rewrite <- Hev'. do 2 f_equal. f_equal; lia.
      * simpl. rewrite Hnew. do 2 f_equal. lia.
Qed.

Lemma compare_answers_run request w :
  ComparisonRequest.answers request ≠ [] ->
  exists evaluated,
    length evaluated = length (ComparisonRequest.answers request) /\
    (forall k a,
       ComparisonRequest.answers request !! k = Some a ->
       exists ai,
         (evaluate_answer_with_ai (ComparisonRequest.problem request)
            (AnswerInput.content a) (ComparisonRequest.context request)
            (consumed (6 * k) (2 * k) 0 0 w)).1 = Ok ai /\
         evaluated !! k = Some (make_result k a ai)) /\
    compare_answers request w
    = (reported (response_of request (default "" (head (uuid_tape w)))
                   (nth 0 (clock_tape w) 0) (nth 1 (clock_tape w) 0)
                   (nth 2 (clock_tape w) 0) evaluated),
       consumed (6 * length (ComparisonRequest.answers request))
                (2 * length (ComparisonRequest.answers request)) 1 3 w).
Proof.
  intros Hne. unfold compare_answers. rewrite compare_answers_with_eq.
  set (N := length (ComparisonRequest.answers request)).
  assert (time_time (consumed 0 0 1 0 w)
          = (Ok (nth 0 (clock_tape w) 0), consumed 0 0 1 1 w)) as Ht.
  { rewrite time_time_run, consumed_consumed. simpl.
    by destruct (clock_tape w). }
  rewrite (bind_run_Ok _ _ _ _ _ (uuid4_run w)).
  rewrite (bind_run_Ok _ _ _ _ _ Ht).
  destruct (loop_run request (ComparisonRequest.answers request) 0 []
              (consumed 0 0 1 1 w)) as (evaluated & Hloop & Hlen & Hk).
  fold N in Hloop. rewrite consumed_consumed in Hloop.
  rewrite (consumed_eq (0 + 6 * N) (0 + 2 * N) (1 + 0) (1 + 0)
             (6 * N) (2 * N) 1 1)%nat in Hloop by lia.
  rewrite app_nil_l in Hloop.
  exists evaluated. split; [done |]. split.
  - intros k a Ha. destruct (Hk k a Ha) as (ai & Hev & Hnew).
    exists ai. split; [| done]. rewrite <- Hev.
    rewrite consumed_consumed.
    pose proof (framed_evaluate_answer_with_ai
      (ComparisonRequest.problem request) (AnswerInput.content a)
      (ComparisonRequest.context request)
      (drop 1 (uuid_tape w)) (drop 1 (clock_tape w))
      (consumed (6 * k) (2 * k) 0 0 w)) as Hfr.
    replace (consumed (0 + 6 * k) (0 + 2 * k) (1 + 0) (1 + 0) w)
      with (reframe (drop 1 (uuid_tape w)) (drop 1 (clock_tape w))
              (consumed (6 * k) (2 * k) 0 0 w))
      by (unfold reframe, consumed; cbn [random_tape randbelow_tape];
          by rewrite !Nat.add_0_l, !Nat.add_0_r).
    by rewrite Hfr.
  - assert (evaluated ≠ []) as Hev.
    { intros ->. by destruct (ComparisonRequest.answers request). }
    pose proof (finish_run request (default "" (head (uuid_tape w)))
                  (nth 0 (clock_tape w) 0) evaluated
                  (consumed (6 * N) (2 * N) 1 1 w) Hev) as Hfin.
    rewrite consumed_consumed in Hfin.
    replace (nth 0 (clock_tape (consumed (6 * N) (2 * N) 1 1 w)) 0)
      with (nth 1 (clock_tape w) 0) in Hfin
      by (cbn [clock_tape consumed];
          by rewrite <- !(head_drop_nth 0), drop_drop).
    replace (nth 1 (clock_tape (consumed (6 * N) (2 * N) 1 1 w)) 0)
      with (nth 2 (clock_tape w) 0) in Hfin
      by (cbn [clock_tape consumed];
          by rewrite <- !(head_drop_nth 0), !drop_drop).
    unfold try_except.
    rewrite (bind_run_Ok _ _ _ _ _ Hloop), Hfin.
    rewrite (consumed_eq (6 * N + 0) (2 * N + 0) (1 + 0) (1 + 2)
               (6 * N) (2 * N) 1 3)%nat by lia.
    by destruct (response_of _ _ _ _ _ _).
Qed.

Lemma compare_answers_Ok_inv request w resp w' :
  compare_answers request w = (Ok resp, w') ->
  exists evaluated,
    length evaluated = length (ComparisonRequest.answers request) /\
    (forall k a,
       ComparisonRequest.answers request !! k = Some a ->
       exists ai,
         (evaluate_answer_with_ai (ComparisonRequest.problem request)
            (AnswerInput.content a) (ComparisonRequest.context request)
            (consumed (6 * k) (2 * k) 0 0 w)).1 = Ok ai /\
         evaluated !! k = Some (make_result k a ai)) /\
    response_of request (default "" (head (uuid_tape w)))
      (nth 0 (clock_tape w) 0) (nth 1 (clock_tape w) 0)
      (nth 2 (clock_tape w) 0) evaluated = Ok resp /\
    w' = consumed (6 * length (ComparisonRequest.answers request))
                  (2 * length (ComparisonRequest.answers request)) 1 3 w.
Proof.
  intros Hrun.
  assert (ComparisonRequest.answers request ≠ []) as Hne.
  { intros Hnil.
    destruct (compare_answers_with_empty evaluate_answer_with_ai request w Hnil)
      as (w2 & H).
    unfold compare_answers in Hrun. congruence. }
  destruct (compare_answers_run request w Hne) as (evaluated & Hlen & Hk & H).
  rewrite H in Hrun. exists evaluated.
  split; [done |]. split; [done |].
  destruct (response_of _ _ _ _ _ _) as [resp0|e]; simplify_eq/=. done.
Qed.

Lemma response_of_Ok request rid t0 t1 t2 evaluated resp :
  response_of request rid t0 t1 t2 evaluated = Ok resp ->
  ComparisonResponse.request_id resp = rid /\
  ComparisonResponse.problem resp = ComparisonRequest.problem request /\
  ComparisonRequest.evaluation_type request
    = Some (ComparisonResponse.evaluation_type resp) /\
  ComparisonResponse.timestamp resp = t2 /\
  ComparisonResponse.processing_time resp = t1 - t0 /\
  ComparisonResponse.results resp = ranked evaluated /\
  ComparisonResponse.confidence_summary resp
    = <["evaluation_reliability" := 0.724]>
        (<["ranking_confidence" := 0.728]>
           (<["average_confidence" :=
                mean (EvaluationResult.confidence <$> ranked evaluated)]> ∅)).
Proof.
  unfold response_of, ComparisonResponse.new. intros H.
  destruct (ComparisonRequest.evaluation_type request),
           (head (EvaluationResult.answer_id <$> ranked evaluated));
    simplify_eq/=. done.
Qed.

Lemma compare_answers_with_Ok_nonempty evaluator request w resp w' :
  compare_answers_with evaluator request w = (Ok resp, w') ->
  ComparisonRequest.answers request ≠ [] /\
  ComparisonResponse.results resp ≠ [].
Proof.
  intros Hrun. split.
  - intros Hnil.
    destruct (compare_answers_with_empty evaluator request w Hnil) as (w2 & H).
    congruence.
  - apply compare_answers_with_Ok in Hrun as (evaluated & _ & Hne & Hres & _).
    rewrite Hres. intros E. apply (f_equal length) in E.
    rewrite ranked_length in E. by destruct evaluated.
Qed.

(** The run of [compare_answers] on a sample request: it answers, and the
    goal is left for the response; the other outcome is computed and found
    not to be an error. *)
Ltac sample_run_with evaluator request world resp w' E :=
  let e := fresh "e" in
  destruct (compare_answers_with evaluator request world)
    as [[resp|e] w'] eqn:E;
  [exists resp, w'; split; [reflexivity |]
  | vm_compute in E; discriminate E].

Ltac sample_run request world resp w' E :=
  let e := fresh "e" in
  destruct (compare_answers request world) as [[resp|e] w'] eqn:E;
  [exists resp, w'; split; [reflexivity |]
  | vm_compute in E; discriminate E].

(** X1: whatever its outcome, a run of [compare_answers] on [n] answers
    (at least one) takes [6 * n] values of [random()], [2 * n] values of
    [_randbelow], one identifier and three readings of the clock, and
    nothing else from the process state. *)
Theorem run_consumes request w outcome w' :
  ComparisonRequest.answers request ≠ [] ->
  compare_answers request w = (outcome, w') ->
  let n := length (ComparisonRequest.answers request) in
  random_tape w' = drop (6 * n) (random_tape w) /\
  randbelow_tape w' = drop (2 * n) (randbelow_tape w) /\
  uuid_tape w' = drop 1 (uuid_tape w) /\
  clock_tape w' = drop 3 (clock_tape w).
Proof.
  intros Hne Hrun.
  destruct (compare_answers_run request w Hne) as (evaluated & _ & _ & H).
  rewrite H in Hrun. by injection Hrun as _ <-.
Qed.

Lemma run_consumes_witness :
  exists outcome w',
    compare_answers gravity_request world0 = (outcome, w') /\
    random_tape w' = [] /\
    randbelow_tape w' = [] /\
    uuid_tape w' = ["7d9f1c52-0000-4000-8000-000000000002"] /\
    clock_tape w' = [].
Proof.
  destruct (compare_answers gravity_request world0) as [outcome w'] eqn:E.
  exists outcome, w'. split; [reflexivity |].
  apply (run_consumes gravity_request world0 outcome w');
    [discriminate | exact E].
Defined.

(** X2: every returned result is the evaluation of one answer of the
    request, made by [evaluate_answer_with_ai] on that answer's own draws:
    the answer at position [i] is evaluated in the state reached after
    [6 * i] values of [random()] and [2 * i] of [_randbelow], whatever the
    other answers are. *)
Theorem candidate_evaluated_on_own_draws request w resp w' r :
  compare_answers request w = (Ok resp, w') ->
  r ∈ ComparisonResponse.results resp ->
  exists i a ai,
    ComparisonRequest.answers request !! i = Some a /\
    (evaluate_answer_with_ai (ComparisonRequest.problem request)
       (AnswerInput.content a) (ComparisonRequest.context request)
       (consumed (6 * i) (2 * i) 0 0 w)).1 = Ok ai /\
    r = EvaluationResult.set_ranking_position
          (EvaluationResult.ranking_position r) (make_result i a ai).
Proof.
  intros Hrun Hr.
  apply compare_answers_Ok_inv in Hrun as (evaluated & Hlen & Hk & Hresp & _).
  apply response_of_Ok in Hresp as (_ & _ & _ & _ & _ & Hres & _).
  rewrite Hres in Hr. apply list_elem_of_lookup in Hr as [k Hr].
  rewrite ranked_lookup in Hr.
  destruct (sort_desc _ evaluated !! k) as [e|] eqn:He; simplify_eq/=.
  apply list_elem_of_lookup_2 in He. rewrite sort_desc_perm in He.
  apply list_elem_of_lookup in He as [i Hi].
  assert (i < length (ComparisonRequest.answers request))%nat as Hlt.
  { rewrite <- Hlen. by eapply lookup_lt_Some. }
  apply lookup_lt_is_Some in Hlt as [a Ha].
  destruct (Hk i a Ha) as (ai & Hev & He). simplify_eq.
  by exists i, a, ai.
Qed.

Lemma candidate_evaluated_on_own_draws_witness :
  exists resp w',
    compare_answers gravity_request world0 = (Ok resp, w') /\
    Forall (fun r =>
      exists i a ai,
        ComparisonRequest.answers gravity_request !! i = Some a /\
        (evaluate_answer_with_ai (ComparisonRequest.problem gravity_request)
           (AnswerInput.content a) (ComparisonRequest.context gravity_request)
           (consumed (6 * i) (2 * i) 0 0 world0)).1 = Ok ai /\
        r = EvaluationResult.set_ranking_position
              (EvaluationResult.ranking_position r) (make_result i a ai))
      (ComparisonResponse.results resp).
Proof.
  sample_run gravity_request world0 resp w' E.
  apply Forall_forall. intros r Hr.
  exact (candidate_evaluated_on_own_draws gravity_request world0 resp w' r E Hr).
Defined.

(** X3: the envelope of a response. [request_id] is the identifier drawn
    at the start, [problem] and [evaluation_type] are those of the request,
    [processing_time] is the second reading of the clock minus the first,
    [timestamp] is the third reading; with a clock that does not go back the
    processing time is not negative. *)
Theorem response_envelope request w resp w' :
  compare_answers request w = (Ok resp, w') ->
  ComparisonResponse.request_id resp = default "" (head (uuid_tape w)) /\
  ComparisonResponse.problem resp = ComparisonRequest.problem request /\
  ComparisonRequest.evaluation_type request
    = Some (ComparisonResponse.evaluation_type resp) /\
  ComparisonResponse.processing_time resp
    = nth 1 (clock_tape w) 0 - nth 0 (clock_tape w) 0 /\
  ComparisonResponse.timestamp resp = nth 2 (clock_tape w) 0 /\
  (nth 0 (clock_tape w) 0 <= nth 1 (clock_tape w) 0 ->
   0 <= ComparisonResponse.processing_time resp).
Proof.
  intros Hrun.
  apply compare_answers_Ok_inv in Hrun as (evaluated & _ & _ & Hresp & _).
  apply response_of_Ok in Hresp as (Hid & Hp & Het & Hts & Hpt & _).
  repeat (split; [done |]). rewrite Hpt. intros Hle. lra.
Qed.

Lemma response_envelope_witness :
  exists resp w',
    compare_answers gravity_request world0 = (Ok resp, w') /\
    ComparisonResponse.request_id resp = "7d9f1c52-0000-4000-8000-000000000001" /\
    ComparisonResponse.problem resp = "Explain gravity" /\
    ComparisonResponse.processing_time resp = 12 - 10 /\
    ComparisonResponse.timestamp resp = 13 /\
    0 <= ComparisonResponse.processing_time resp.
Proof.
  sample_run gravity_request world0 resp w' E.
  destruct (response_envelope gravity_request world0 resp w' E)
    as (Hid & Hp & _ & Hpt & Hts & Hpos).
  split; [exact Hid |]. split; [exact Hp |]. split; [exact Hpt |].
  split; [exact Hts |]. apply Hpos. by compute.
Defined.

(** X4: on a request with at least one answer, [compare_answers] fails
    exactly when [evaluation_type] is [None], the field being
    [Optional[str]] in the request and [str] in the response; the failure
    is then an HTTP error 500 whose detail starts with
    [Evaluation failed: ]. *)
Theorem fails_iff_evaluation_type_is_null request w :
  ComparisonRequest.answers request ≠ [] ->
  (ComparisonRequest.evaluation_type request = None ->
   exists msg w',
     compare_answers request w
     = (Raised (HTTPException 500 ("Evaluation failed: " ++ msg)), w')) /\
  (forall e w',
     compare_answers request w = (Raised e, w') ->
     ComparisonRequest.evaluation_type request = None).
Proof.
  intros Hne.
  destruct (compare_answers_run request w Hne) as (evaluated & Hlen & _ & H).
  assert (head (EvaluationResult.answer_id <$> ranked evaluated) ≠ None) as Hh.
  { assert (length (ranked evaluated) ≠ O) as Hn.
    { rewrite ranked_length, Hlen.
      by destruct (ComparisonRequest.answers request). }
    by destruct (ranked evaluated). }
  rewrite H. unfold response_of, ComparisonResponse.new.
  destruct (ComparisonRequest.evaluation_type request) as [et|],
           (head (EvaluationResult.answer_id <$> ranked evaluated)) as [b|];
    try done; simpl.
  split; [| done]. intros _. eexists _, _. reflexivity.
Qed.

Lemma fails_iff_evaluation_type_is_null_witness :
  (exists msg w',
     compare_answers null_type_request world0
     = (Raised (HTTPException 500 ("Evaluation failed: " ++ msg)), w')) /\
  (forall e w',
     compare_answers gravity_request world0 = (Raised e, w') -> False).
Proof.
  split.
  - apply (fails_iff_evaluation_type_is_null null_type_request world0);
      [discriminate | reflexivity].
  - intros e w' H.
    apply (fails_iff_evaluation_type_is_null gravity_request world0) in H;
      [discriminate H | discriminate].
Defined.

(** ** The scores of the mock evaluation *)

Lemma random_uniform_draw a b k w :
  random_uniform a b (consumed k 0 0 0 w)
  = (Ok (a + (b - a) * draw k w), consumed (S k) 0 0 0 w).
Proof.
  rewrite random_uniform_run, consumed_consumed. unfold draw.
  cbn [random_tape consumed]. rewrite head_drop_nth.
  f_equal. apply consumed_eq; lia.
Qed.

Lemma mock_scorer_run problem answer context w :
  mock_scorer problem answer context w
  = (Ok (scores_of_draws answer w), consumed 6 0 0 0 w).
Proof.
  unfold mock_scorer. rewrite <- (consumed_0 w) at 1.
  rewrite (bind_run_Ok _ _ _ _ _ (random_uniform_draw _ _ 0 w)).
  rewrite (bind_run_Ok _ _ _ _ _ (random_uniform_draw _ _ 1 w)).
  rewrite (bind_run_Ok _ _ _ _ _ (random_uniform_draw _ _ 2 w)).
  rewrite (bind_run_Ok _ _ _ _ _ (random_uniform_draw _ _ 3 w)).
  rewrite (bind_run_Ok _ _ _ _ _ (random_uniform_draw _ _ 4 w)).
  rewrite (bind_run_Ok _ _ _ _ _ (random_uniform_draw _ _ 5 w)).
  reflexivity.
Qed.

Lemma evaluate_answer_with_ai_fields problem answer context w ai :
  (evaluate_answer_with_ai problem answer context w).1 = Ok ai ->
  AiResult.archetype_scores ai = scores_of_draws answer w /\
  AiResult.overall_score ai
    = mean (ArchetypeScore.score <$> scores_of_draws answer w) /\
  AiResult.strengths ai = strengths_of (scores_of_draws answer w) /\
  AiResult.weaknesses ai = weaknesses_of (scores_of_draws answer w) /\
  two_suggestions (AiResult.improvement_suggestions ai).
Proof.
  intros H.
  destruct (evaluate_answer_with_ai problem answer context w) as [r w'] eqn:E.
  simpl in H. subst r. rewrite evaluate_answer_with_ai_eq in E.
  apply evaluate_answer_with_Ok in E
    as ((w1 & Hs) & _ & Hmean & Hst & Hwk & Hsug).
  rewrite mock_scorer_run in Hs. injection Hs as Hs _.
  by rewrite Hmean, Hst, Hwk, <- Hs.
Qed.

Lemma draw_unit k w : unit_draws w -> 0 <= draw k w /\ draw k w < 1.
Proof.
  unfold unit_draws, draw. intros H.
  destruct (decide (k < length (random_tape w))%nat) as [Hk|Hk].
  - apply lookup_lt_is_Some in Hk as [x Hx].
    rewrite (nth_lookup_Some _ _ _ _ Hx).
    by eapply (Forall_lookup_1 _ _ _ _ H).
  - rewrite nth_overflow by lia. split; [apply Qle_refl | reflexivity].
Qed.

Lemma unit_draws_consumed n m u c w : unit_draws w -> unit_draws (consumed n m u c w).
Proof. unfold unit_draws. simpl. apply Forall_drop. Qed.

Lemma unit_draws_world0 : unit_draws world0.
Proof.
  unfold unit_draws, world0. cbn [random_tape].
  repeat (apply List.Forall_cons; [split; by compute |]).
  apply List.Forall_nil.
Defined.

Lemma base_score_of_bounds answer r :
  0 <= r -> r < 1 ->
  0.6 <= base_score_of answer r /\ base_score_of answer r < 0.98.
Proof.
  intros H0 H1. unfold base_score_of.
  destruct (100 <? String.length answer)%nat,
           (contains "?" answer || contains "because" answer); split; lra.
Qed.

Lemma min_spec x y :
  (y < x /\ Py.min x y = y) \/ (x <= y /\ Py.min x y = x).
Proof.
  unfold Py.min. destruct (Qlt_bool y x) eqn:E.
  - left. by apply Qlt_bool_true in E.
  - right. by apply Qlt_bool_false in E.
Qed.

Lemma scores_of_draws_bounds answer w :
  unit_draws w ->
  Forall (fun s => 0.5 <= ArchetypeScore.score s /\ ArchetypeScore.score s <= 1)
         (scores_of_draws answer w).
Proof.
  intros H. unfold scores_of_draws.
  destruct (base_score_of_bounds answer (draw 0 w)) as [Hb _];
    [apply (draw_unit 0 w H) | apply (draw_unit 0 w H) |].
  pose proof (draw_unit 1 w H) as [? ?]. pose proof (draw_unit 2 w H) as [? ?].
  pose proof (draw_unit 3 w H) as [? ?]. pose proof (draw_unit 4 w H) as [? ?].
  pose proof (draw_unit 5 w H) as [? ?].
  repeat (apply List.Forall_cons;
    [cbn [ArchetypeScore.score];
     match goal with
     | |- _ <= Py.min ?x ?y /\ _ =>
         destruct (min_spec x y) as [[? ->]|[? ->]]; split; lra
     end |]).
  apply List.Forall_nil.
Qed.

Lemma sum_from_bounds lo hi (l : list Q) acc :
  Forall (fun x => lo <= x /\ x <= hi) l ->
  acc + lo * inject_Z (Z.of_nat (length l)) <= foldl Qplus acc l /\
  foldl Qplus acc l <= acc + hi * inject_Z (Z.of_nat (length l)).
Proof.
  intros H. revert acc. induction H as [|x l [Hx1 Hx2] _ IH]; intros acc.
  - cbn [foldl length]. change (inject_Z (Z.of_nat 0)) with 0. split; lra.
  - cbn [foldl length]. destruct (IH (acc + x)) as [IH1 IH2].
    rewrite Nat2Z.inj_succ, <- Z.add_1_r, inject_Z_plus.
    change (inject_Z 1) with 1. split; lra.
Qed.

Lemma mean_bounds lo hi (l : list Q) :
  l ≠ [] ->
  Forall (fun x => lo <= x /\ x <= hi) l ->
  lo <= mean l /\ mean l <= hi.
Proof.
  intros Hne H. unfold mean, Py.sum.
  destruct (sum_from_bounds lo hi l 0 H) as [H1 H2].
  assert (0 < inject_Z (Z.of_nat (length l))) as Hpos.
  { destruct l; [done |]. rewrite <- (Zlt_Qlt 0). simpl. lia. }
  split.
  - apply Qle_shift_div_l; [done |]. lra.
  - apply Qle_shift_div_r; [done |]. lra.
Qed.

Lemma results_from_draws request w resp w' r :
  compare_answers request w = (Ok resp, w') ->
  r ∈ ComparisonResponse.results resp ->
  exists i a,
    ComparisonRequest.answers request !! i = Some a /\
    let l := scores_of_draws (AnswerInput.content a)
               (consumed (6 * i) (2 * i) 0 0 w) in
    EvaluationResult.answer_id r = effective_id i a /\
    EvaluationResult.content r = AnswerInput.content a /\
    EvaluationResult.confidence r = 0.728 /\
    EvaluationResult.archetype_scores r = l /\
    EvaluationResult.overall_score r = mean (ArchetypeScore.score <$> l) /\
    EvaluationResult.strengths r = strengths_of l /\
    EvaluationResult.weaknesses r = weaknesses_of l /\
    two_suggestions (EvaluationResult.improvement_suggestions r).
Proof.
  intros Hrun Hr.
  apply compare_answers_Ok_inv in Hrun as (evaluated & Hlen & Hk & Hresp & _).
  apply response_of_Ok in Hresp as (_ & _ & _ & _ & _ & Hres & _).
  rewrite Hres in Hr. apply list_elem_of_lookup in Hr as [k Hr].
  rewrite ranked_lookup in Hr.
  destruct (sort_desc _ evaluated !! k) as [e|] eqn:He; simplify_eq/=.
  apply list_elem_of_lookup_2 in He. rewrite sort_desc_perm in He.
  apply list_elem_of_lookup in He as [i Hi].
  assert (i < length (ComparisonRequest.answers request))%nat as Hlt.
  { rewrite <- Hlen. by eapply lookup_lt_Some. }
  apply lookup_lt_is_Some in Hlt as [a Ha].
  destruct (Hk i a Ha) as (ai & Hev & He). simplify_eq.
  apply evaluate_answer_with_ai_fields in Hev
    as (Hsc & Hov & Hst & Hwk & Hsug).
  exists i, a. split; [done |]. simpl.
  by rewrite Hsc, Hov, Hst, Hwk.
Qed.

Lemma all_scores_for_Forall (P : Q -> Prop) a rs :
  Forall (fun r => Forall (fun s => P (ArchetypeScore.score s))
                          (EvaluationResult.archetype_scores r)) rs ->
  Forall P (all_scores_for a rs).
Proof.
  unfold all_scores_for. induction 1 as [|r rs Hr _ IH]; csimpl; [done |].
  apply Forall_app. split; [| done].
  unfold scores_for. apply Forall_fmap, Forall_forall.
  intros s [_ Hs]%list_elem_of_filter. simpl.
  by eapply Forall_forall in Hr.
Qed.

(** X5: with the values of [random()] in the interval [0, 1), every
    archetype score of every result, every overall score and every entry of
    the archetype summary lies between 0.5 and 1. *)
Theorem scores_within_bounds request w resp w' :
  unit_draws w ->
  compare_answers request w = (Ok resp, w') ->
  Forall (fun r =>
            Forall (fun s => 0.5 <= ArchetypeScore.score s /\
                             ArchetypeScore.score s <= 1)
                   (EvaluationResult.archetype_scores r) /\
            0.5 <= EvaluationResult.overall_score r /\
            EvaluationResult.overall_score r <= 1)
         (ComparisonResponse.results resp) /\
  (forall a q,
     ComparisonResponse.archetype_summary resp !! a = Some q ->
     0.5 <= q /\ q <= 1).
Proof.
  intros Hu Hrun.
  assert (Forall (fun r =>
            Forall (fun s => 0.5 <= ArchetypeScore.score s /\
                             ArchetypeScore.score s <= 1)
                   (EvaluationResult.archetype_scores r) /\
            0.5 <= EvaluationResult.overall_score r /\
            EvaluationResult.overall_score r <= 1)
         (ComparisonResponse.results resp)) as Hres.
  { apply Forall_forall. intros r Hr.
    destruct (results_from_draws _ _ _ _ _ Hrun Hr)
      as (i & a & _ & _ & _ & _ & Hsc & Hov & _).
    pose proof (scores_of_draws_bounds (AnswerInput.content a) _
                  (unit_draws_consumed (6 * i) (2 * i) 0 0 w Hu)) as Hb.
    rewrite Hsc, Hov. split; [done |].
    apply mean_bounds; [done |]. by apply Forall_fmap. }
  split; [done |]. intros a q Hq.
  rewrite (archetype_summary_lookup _ _ _ _ _ a Hrun) in Hq.
  destruct (all_scores_for a (ComparisonResponse.results resp))
    as [|x l] eqn:E; simplify_eq/=.
  apply mean_bounds; [done |]. rewrite <- E.
  apply all_scores_for_Forall.
  eapply Forall_impl; [exact Hres |]. by intros r [Hr _].
Qed.

Lemma scores_within_bounds_witness :
  exists resp w',
    compare_answers gravity_request world0 = (Ok resp, w') /\
    Forall (fun r => 0.5 <= EvaluationResult.overall_score r /\
                     EvaluationResult.overall_score r <= 1)
           (ComparisonResponse.results resp).
Proof.
  sample_run gravity_request world0 resp w' E.
  destruct (scores_within_bounds gravity_request world0 resp w'
              unit_draws_world0 E) as [H _].
  eapply Forall_impl; [exact H |]. by intros r [_ Hr].
Defined.

Lemma feedback_partition (l : list ArchetypeScore.t) :
  (length (strengths_of l) + length (weaknesses_of l) + length (dead_zone l)
   = length l)%nat.
Proof.
  unfold strengths_of, weaknesses_of, dead_zone. rewrite !length_fmap.
  induction l as [|s l IH]; [done |].
  rewrite !filter_cons.
  destruct (Qlt_bool 0.7 (ArchetypeScore.score s)) eqn:E1,
           (Qlt_bool (ArchetypeScore.score s) 0.6) eqn:E2.
  - apply Qlt_bool_true in E1, E2. lra.
  - repeat case_decide; simpl; first [lia | naive_solver].
  - repeat case_decide; simpl; first [lia | naive_solver].
  - repeat case_decide; simpl; first [lia | naive_solver].
Qed.

(** X6: the strengths and the weaknesses of a result are those of its own
    archetype scores, and each of the five scores is counted once: as a
    strength (above 0.7), as a weakness (below 0.6), or as neither (from
    0.6 to 0.7, where the result says nothing about the archetype). *)
Theorem strengths_and_weaknesses_partition request w resp w' r :
  compare_answers request w = (Ok resp, w') ->
  r ∈ ComparisonResponse.results resp ->
  EvaluationResult.strengths r
    = strengths_of (EvaluationResult.archetype_scores r) /\
  EvaluationResult.weaknesses r
    = weaknesses_of (EvaluationResult.archetype_scores r) /\
  (length (EvaluationResult.strengths r)
   + length (EvaluationResult.weaknesses r)
   + length (dead_zone (EvaluationResult.archetype_scores r)) = 5)%nat.
Proof.
  intros Hrun Hr.
  destruct (results_from_draws _ _ _ _ _ Hrun Hr)
    as (i & a & _ & _ & _ & _ & Hsc & _ & Hst & Hwk & _).
  rewrite Hst, Hwk, Hsc. split; [done |]. split; [done |].
  by rewrite feedback_partition.
Qed.

Lemma strengths_and_weaknesses_partition_witness :
  exists resp w',
    compare_answers gravity_request world0 = (Ok resp, w') /\
    Forall (fun r =>
      (length (EvaluationResult.strengths r)
       + length (EvaluationResult.weaknesses r)
       + length (dead_zone (EvaluationResult.archetype_scores r)) = 5)%nat)
      (ComparisonResponse.results resp).
Proof.
  sample_run gravity_request world0 resp w' E.
  apply Forall_forall. intros r Hr.
  by destruct (strengths_and_weaknesses_partition gravity_request world0
                 resp w' r E Hr) as (_ & _ & H).
Defined.

(** ** The two tests on the answer *)

Lemma base_score_of_mono answer1 answer2 r :
  (long_answer answer2 = true -> long_answer answer1 = true) ->
  (explanatory answer2 = true -> explanatory answer1 = true) ->
  base_score_of answer2 r <= base_score_of answer1 r.
Proof.
  unfold long_answer, explanatory, base_score_of. intros Hl He.
  destruct (100 <? String.length answer1)%nat,
           (100 <? String.length answer2)%nat,
           (contains "?" answer1 || contains "because" answer1),
           (contains "?" answer2 || contains "because" answer2);
    try (by specialize (Hl eq_refl)); try (by specialize (He eq_refl)); lra.
Qed.

Lemma min_mono x y c : x <= y -> Py.min x c <= Py.min y c.
Proof.
  intros H.
  destruct (min_spec x c) as [[? ->]|[? ->]],
           (min_spec y c) as [[? ->]|[? ->]]; lra.
Qed.

Lemma sum_from_mono (l1 l2 : list Q) acc1 acc2 :
  acc1 <= acc2 -> Forall2 Qle l1 l2 ->
  foldl Qplus acc1 l1 <= foldl Qplus acc2 l2.
Proof.
  intros Ha H. revert acc1 acc2 Ha.
  induction H as [|x y l1 l2 Hxy _ IH]; intros acc1 acc2 Ha; simpl; [done |].
  apply IH. lra.
Qed.

Lemma mean_mono (l1 l2 : list Q) :
  Forall2 Qle l1 l2 -> mean l1 <= mean l2.
Proof.
  intros H. unfold mean, Py.sum. rewrite (Forall2_length _ _ _ H).
  unfold Qdiv. apply Qmult_le_compat_r.
  - apply sum_from_mono; [lra | done].
  - apply Qinv_le_0_compat. rewrite <- (Zle_Qle 0). lia.
Qed.

(** X7: on the same draws, an answer that passes every test the other
    passes (longer than 100 characters; a question mark or the word
    because) gets no lower score on any archetype and no lower overall
    score, whatever the problems, the contexts and the rest of the texts. *)
Theorem features_never_lower_the_scores
    problem1 problem2 answer1 answer2 context1 context2 w ai1 ai2 :
  (long_answer answer2 = true -> long_answer answer1 = true) ->
  (explanatory answer2 = true -> explanatory answer1 = true) ->
  (evaluate_answer_with_ai problem1 answer1 context1 w).1 = Ok ai1 ->
  (evaluate_answer_with_ai problem2 answer2 context2 w).1 = Ok ai2 ->
  Forall2 (fun s1 s2 =>
             ArchetypeScore.archetype s1 = ArchetypeScore.archetype s2 /\
             ArchetypeScore.score s2 <= ArchetypeScore.score s1)
          (AiResult.archetype_scores ai1) (AiResult.archetype_scores ai2) /\
  AiResult.overall_score ai2 <= AiResult.overall_score ai1.
Proof.
  intros Hl He H1 H2.
  apply evaluate_answer_with_ai_fields in H1 as (Hs1 & Ho1 & _).
  apply evaluate_answer_with_ai_fields in H2 as (Hs2 & Ho2 & _).
  pose proof (base_score_of_mono answer1 answer2 (draw 0 w) Hl He) as Hb.
  assert (Forall2 (fun s1 s2 =>
             ArchetypeScore.archetype s1 = ArchetypeScore.archetype s2 /\
             ArchetypeScore.score s2 <= ArchetypeScore.score s1)
            (scores_of_draws answer1 w) (scores_of_draws answer2 w)) as HF.
  { unfold scores_of_draws.
    repeat (apply Forall2_cons; split;
            [split; [done |]; cbn [ArchetypeScore.score];
             apply min_mono; lra |]).
    apply Forall2_nil_2. }
  rewrite Hs1, Hs2, Ho1, Ho2. split; [done |].
  apply mean_mono. apply Forall2_fmap.
  apply Forall2_flip. eapply Forall2_impl; [exact HF |]. by intros s1 s2 [_ ?].
Qed.

Lemma features_never_lower_the_scores_witness :
  exists ai1 ai2,
    (evaluate_answer_with_ai "Explain gravity" long_text None world0).1
      = Ok ai1 /\
    (evaluate_answer_with_ai "Explain gravity" "Gravity is a force." None
       world0).1 = Ok ai2 /\
    AiResult.overall_score ai2 <= AiResult.overall_score ai1.
Proof.
  destruct (evaluate_answer_with_ai "Explain gravity" long_text None world0).1
    as [ai1|e1] eqn:E1; [| vm_compute in E1; discriminate E1].
  destruct (evaluate_answer_with_ai "Explain gravity" "Gravity is a force."
              None world0).1
    as [ai2|e2] eqn:E2; [| vm_compute in E2; discriminate E2].
  exists ai1, ai2. split; [reflexivity |]. split; [reflexivity |].
  apply (features_never_lower_the_scores
           "Explain gravity" "Explain gravity" long_text "Gravity is a force."
           None None world0 ai1 ai2);
    [discriminate | discriminate | exact E1 | exact E2].
Defined.

Lemma evaluate_answer_with_ai_alike problem1 problem2 answer1 answer2
    context1 context2 w :
  long_answer answer1 = long_answer answer2 ->
  explanatory answer1 = explanatory answer2 ->
  evaluate_answer_with_ai problem1 answer1 context1 w
  = evaluate_answer_with_ai problem2 answer2 context2 w.
Proof.
  unfold long_answer, explanatory, evaluate_answer_with_ai.
  by intros -> ->.
Qed.

Lemma ranked_without_content l :
  without_content <$> ranked l = ranked (without_content <$> l).
Proof.
  unfold ranked.
  rewrite <- (sort_desc_fmap EvaluationResult.overall_score without_content).
  by rewrite imap_fmap, fmap_imap.
Qed.

(** X8: the handler reads the request through the identifiers of the
    answers and the two tests only. Two requests whose answers agree in
    these, run on the same process state, get the same results up to the
    text of the answers (scores, ranks, strengths, weaknesses, suggestions),
    the same best answer and the same archetype summary, whatever the
    problems, the contexts, the evaluation types and the texts are. *)
Theorem ranking_reads_two_features request1 request2 w resp1 resp2 w1 w2 :
  Forall2 alike (ComparisonRequest.answers request1)
                (ComparisonRequest.answers request2) ->
  compare_answers request1 w = (Ok resp1, w1) ->
  compare_answers request2 w = (Ok resp2, w2) ->
  without_content <$> ComparisonResponse.results resp1
    = without_content <$> ComparisonResponse.results resp2 /\
  ComparisonResponse.best_answer resp1 = ComparisonResponse.best_answer resp2 /\
  ComparisonResponse.archetype_summary resp1
    = ComparisonResponse.archetype_summary resp2.
Proof.
  intros Halike Hrun1 Hrun2.
  pose proof Hrun1 as Hb1. pose proof Hrun2 as Hb2.
  apply compare_answers_with_Ok in Hb1 as (ev1' & _ & _ & Hr1' & Hbest1 & Hsum1 & _).
  apply compare_answers_with_Ok in Hb2 as (ev2' & _ & _ & Hr2' & Hbest2 & Hsum2 & _).
  apply compare_answers_Ok_inv in Hrun1 as (ev1 & Hlen1 & Hk1 & Hresp1 & _).
  apply compare_answers_Ok_inv in Hrun2 as (ev2 & Hlen2 & Hk2 & Hresp2 & _).
  apply response_of_Ok in Hresp1 as (_ & _ & _ & _ & _ & Hres1 & _).
  apply response_of_Ok in Hresp2 as (_ & _ & _ & _ & _ & Hres2 & _).
  assert (without_content <$> ev1 = without_content <$> ev2) as Hev.
  { apply list_eq. intros k. rewrite !list_lookup_fmap.
    destruct (ComparisonRequest.answers request1 !! k) as [a1|] eqn:Ha1.
    - destruct (Forall2_lookup_l _ _ _ _ _ Halike Ha1) as (a2 & Ha2 & Hid & Hl & He).
      destruct (Hk1 k a1 Ha1) as (ai1 & Hev1 & ->).
      destruct (Hk2 k a2 Ha2) as (ai2 & Hev2 & ->).
      rewrite (evaluate_answer_with_ai_alike _
                 (ComparisonRequest.problem request2) _ _ _
                 (ComparisonRequest.context request2) _ Hl He) in Hev1.
      rewrite Hev1 in Hev2. injection Hev2 as ->. simpl.
      unfold without_content, make_result. simpl. by rewrite Hid.
    - pose proof (Forall2_length _ _ _ Halike) as Hlen.
      apply lookup_ge_None in Ha1.
      rewrite (proj2 (lookup_ge_None ev1 k)) by lia.
      by rewrite (proj2 (lookup_ge_None ev2 k)) by lia. }
  assert (without_content <$> ComparisonResponse.results resp1
          = without_content <$> ComparisonResponse.results resp2) as Heq.
  { by rewrite Hres1, Hres2, !ranked_without_content, Hev. }
  split; [done |]. split.
  - rewrite <- Hr1' in Hbest1. rewrite <- Hr2' in Hbest2.
    assert (forall l, head (EvaluationResult.answer_id <$> l)
                      = head (EvaluationResult.answer_id
                                <$> (without_content <$> l))) as Hhead.
    { intros l. by rewrite <- list_fmap_compose. }
    rewrite Hhead, Heq, <- Hhead, Hbest2 in Hbest1. by injection Hbest1.
  - rewrite Hsum1, Hsum2, <- Hr1', <- Hr2'.
    apply map_eq. intros a. rewrite !lookup_fmap, !collect_scores_lookup.
    assert (forall l, all_scores_for a l
                      = all_scores_for a (without_content <$> l)) as Hall.
    { intros l. unfold all_scores_for. by rewrite <- list_fmap_compose. }
    by rewrite (Hall (ComparisonResponse.results resp1)), Heq, <- Hall.
Qed.

Lemma ranking_reads_two_features_witness :
  exists resp1 w1,
    compare_answers gravity_request world0 = (Ok resp1, w1) /\
    exists resp2 w2,
      compare_answers reworded_request world0 = (Ok resp2, w2) /\
      ComparisonResponse.best_answer resp1
        = ComparisonResponse.best_answer resp2 /\
      ComparisonResponse.archetype_summary resp1
        = ComparisonResponse.archetype_summary resp2.
Proof.
  sample_run gravity_request world0 resp1 w1 E1.
  sample_run reworded_request world0 resp2 w2 E2.
  destruct (ranking_reads_two_features gravity_request reworded_request world0
              resp1 resp2 w1 w2) as (_ & Hbest & Hsum);
    [ repeat (apply Forall2_cons; split; [by repeat split |]);
      apply Forall2_nil_2
    | exact E1 | exact E2 |].
  split; [exact Hbest | exact Hsum].
Defined.

(** ** The two summaries *)

(** X9: the confidence of every result is 0.728, and the confidence
    summary has three entries: [average_confidence], the sum of the
    confidences of the results divided by their number, as the code
    computes it, [ranking_confidence] 0.728 and [evaluation_reliability]
    0.724; the last two are the same for every request. *)
Theorem confidence_summary_of_a_response request w resp w' :
  compare_answers request w = (Ok resp, w') ->
  Forall (fun r => EvaluationResult.confidence r = 0.728)
         (ComparisonResponse.results resp) /\
  ComparisonResponse.confidence_summary resp
  = <["evaluation_reliability" := 0.724]>
      (<["ranking_confidence" := 0.728]>
         (<["average_confidence" :=
              Py.sum (EvaluationResult.confidence
                        <$> ComparisonResponse.results resp)
              / inject_Z (Z.of_nat (length (ComparisonResponse.results resp)))]>
            ∅)).
Proof.
  intros Hrun. split.
  - apply Forall_forall. intros r Hr.
    by destruct (results_from_draws _ _ _ _ _ Hrun Hr)
      as (i & a & _ & _ & _ & Hc & _).
  - apply compare_answers_Ok_inv in Hrun as (evaluated & _ & _ & Hresp & _).
    apply response_of_Ok in Hresp as (_ & _ & _ & _ & _ & Hres & Hsum).
    rewrite Hsum, Hres. unfold mean. by rewrite length_fmap.
Qed.

Lemma confidence_summary_of_a_response_witness :
  exists resp w',
    compare_answers gravity_request world0 = (Ok resp, w') /\
    Forall (fun r => EvaluationResult.confidence r = 0.728)
           (ComparisonResponse.results resp) /\
    ComparisonResponse.confidence_summary resp !! "ranking_confidence"
      = Some 0.728 /\
    ComparisonResponse.confidence_summary resp !! "evaluation_reliability"
      = Some 0.724 /\
    is_Some (ComparisonResponse.confidence_summary resp
               !! "average_confidence").
Proof.
  sample_run gravity_request world0 resp w' E.
  destruct (confidence_summary_of_a_response gravity_request world0 resp w' E)
    as (Hc & Hsum).
  split; [exact Hc |]. rewrite Hsum.
  split; [reflexivity |]. split; [reflexivity |]. eexists. reflexivity.
Defined.

Lemma archetype_summary_keys request w resp w' a :
  compare_answers request w = (Ok resp, w') ->
  is_Some (ComparisonResponse.archetype_summary resp !! a) <-> a ∈ archetypes.
Proof.
  intros Hrun. split.
  - intros [q Hq].
    rewrite (archetype_summary_lookup _ _ _ _ _ a Hrun) in Hq.
    destruct (all_scores_for a (ComparisonResponse.results resp))
      as [|x l] eqn:E; [done |].
    assert (exists r, r ∈ ComparisonResponse.results resp /\
                      scores_for a r ≠ []) as (r & Hr & Hs).
    { clear -E. unfold all_scores_for in E.
      induction (ComparisonResponse.results resp) as [|r rs IH];
        csimpl in *; [done |].
      destruct (scores_for a r) eqn:Er.
      - destruct (IH E) as (r' & Hr' & Hs'). exists r'. split; [by right | done].
      - exists r. split; [left | by rewrite Er]. }
    rewrite <- (compare_answers_archetypes request w resp w' r Hrun Hr).
    unfold scores_for in Hs.
    destruct (filter _ _) as [|s l'] eqn:Ef; [done |].
    assert (s ∈ filter (fun s => ArchetypeScore.archetype s = a)
                       (EvaluationResult.archetype_scores r)) as Hin.
    { rewrite Ef. left. }
    apply list_elem_of_filter in Hin as [<- Hin].
    by apply list_elem_of_fmap_2.
  - intros Ha.
    destruct (compare_answers_summary request w resp w' a Hrun Ha)
      as [_ ->]. eauto.
Qed.

(** X10: the keys of the archetype summary are the five archetypes of the
    mock evaluation and no other, and each entry is the mean of that
    archetype's score over all the answers of the request. *)
Theorem archetype_summary_has_five_entries request w resp w' :
  compare_answers request w = (Ok resp, w') ->
  (forall a, is_Some (ComparisonResponse.archetype_summary resp !! a)
             <-> a ∈ archetypes) /\
  (forall a, a ∈ archetypes ->
     length (omap (score_of a) (ComparisonResponse.results resp))
       = length (ComparisonRequest.answers request) /\
     ComparisonResponse.archetype_summary resp !! a
       = Some (mean (omap (score_of a) (ComparisonResponse.results resp)))).
Proof.
  intros Hrun. split.
  - intros a. by apply (archetype_summary_keys request w resp w').
  - intros a Ha. by apply (compare_answers_summary request w resp w').
Qed.

Lemma archetype_summary_has_five_entries_witness :
  exists resp w',
    compare_answers gravity_request world0 = (Ok resp, w') /\
    is_Some (ComparisonResponse.archetype_summary resp !! "clarity") /\
    ~ is_Some (ComparisonResponse.archetype_summary resp !! "creativity").
Proof.
  sample_run gravity_request world0 resp w' E.
  destruct (archetype_summary_has_five_entries gravity_request world0 resp w' E)
    as [Hkeys _].
  split.
  - apply Hkeys. unfold archetypes. apply list_elem_of_here.
  - intros H. apply Hkeys in H. unfold archetypes in H.
    repeat (apply elem_of_cons in H as [H|H]; [discriminate H |]).
    by apply elem_of_nil in H.
Defined.

(** ** Identifiers and the best answer *)

Lemma enumerate_from_imap {A B} (f : nat -> A -> B) s (l : list A) :
  (fun ia => f ia.1 ia.2) <$> enumerate_from s l = imap (fun i => f (s + i)%nat) l.
Proof.
  revert s. induction l as [|x l IH]; intros s; csimpl; [done |].
  rewrite IH, Nat.add_0_r. f_equal. apply imap_ext. intros i y _. simpl.
  f_equal. lia.
Qed.

Lemma built_answer_ids evaluator request enum evaluated :
  Forall2 (built evaluator request) enum evaluated ->
  EvaluationResult.answer_id <$> evaluated
  = (fun ia => effective_id ia.1 ia.2) <$> enum.
Proof.
  induction 1 as [|ia r enum evaluated Hb _ IH]; csimpl; [done |].
  destruct Hb as (w1 & w2 & ai & _ & ->). by rewrite IH.
Qed.

Lemma ranked_answer_ids l :
  EvaluationResult.answer_id <$> ranked l ≡ₚ EvaluationResult.answer_id <$> l.
Proof.
  assert (EvaluationResult.answer_id <$> ranked l
          = EvaluationResult.answer_id
              <$> sort_desc EvaluationResult.overall_score l) as ->.
  { apply list_eq. intros k. rewrite !list_lookup_fmap, ranked_lookup.
    by destruct (sort_desc EvaluationResult.overall_score l !! k). }
  by rewrite sort_desc_perm.
Qed.

Lemma anonymous_ids_NoDup (l : list AnswerInput.t) s :
  Forall (fun a => AnswerInput.id a = None \/ AnswerInput.id a = Some "") l ->
  NoDup ((fun ia => effective_id ia.1 ia.2) <$> enumerate_from s l) /\
  forall i a, (i, a) ∈ enumerate_from s l ->
              effective_id i a = "answer_" ++ pretty i.
Proof.
  intros H. revert s. induction H as [|a l Ha _ IH]; intros s; csimpl.
  - split; [constructor |]. intros i a Hin. by apply elem_of_nil in Hin.
  - destruct (IH (S s)) as [Hnd Hid].
    assert (effective_id s a = "answer_" ++ pretty s) as Hs.
    { unfold effective_id. by destruct Ha as [-> | ->]. }
    split.
    + constructor; [| done]. rewrite Hs.
      intros ([i b] & Heq & Hin)%list_elem_of_fmap. simpl in Heq.
      rewrite (Hid i b Hin) in Heq.
      simplify_eq/=.
      apply enumerate_from_elem in Hin as [Hle _]. lia.
    + intros i b [Heq|Hin]%elem_of_cons; [by simplify_eq | by apply Hid].
Qed.

(** X11: for any evaluator, the identifiers of the results are those of
    the answers ([answer.id or f"answer_{i}"]), each once, in the order of
    the ranking; when no answer brings an identifier of its own (absent or
    empty), the identifiers of the results are pairwise distinct. *)
Theorem answer_ids_of_results evaluator request w resp w' :
  compare_answers_with evaluator request w = (Ok resp, w') ->
  EvaluationResult.answer_id <$> ComparisonResponse.results resp
    ≡ₚ imap effective_id (ComparisonRequest.answers request) /\
  (Forall (fun a => AnswerInput.id a = None \/ AnswerInput.id a = Some "")
          (ComparisonRequest.answers request) ->
   NoDup (EvaluationResult.answer_id <$> ComparisonResponse.results resp)).
Proof.
  intros Hrun.
  apply compare_answers_with_Ok in Hrun as (evaluated & HF & _ & Hres & _).
  assert (EvaluationResult.answer_id <$> ComparisonResponse.results resp
          ≡ₚ (fun ia => effective_id ia.1 ia.2)
               <$> enumerate_from 0 (ComparisonRequest.answers request)) as Hp.
  { by rewrite Hres, ranked_answer_ids, (built_answer_ids _ _ _ _ HF). }
  split.
  - rewrite Hp, enumerate_from_imap. reflexivity.
  - intros Hanon. rewrite Hp. by apply anonymous_ids_NoDup.
Qed.

Lemma answer_ids_of_results_witness :
  exists resp w',
    compare_answers_with evaluate_answer_with_ai unnamed_request world0
      = (Ok resp, w') /\
    EvaluationResult.answer_id <$> ComparisonResponse.results resp
      ≡ₚ ["answer_0"; "answer_1"] /\
    NoDup (EvaluationResult.answer_id <$> ComparisonResponse.results resp).
Proof.
  sample_run_with evaluate_answer_with_ai unnamed_request world0 resp w' E.
  destruct (answer_ids_of_results evaluate_answer_with_ai unnamed_request world0
              resp w' E) as [Hperm Hnd].
  split; [exact Hperm |].
  apply Hnd. unfold unnamed_request. cbn [ComparisonRequest.answers].
  apply List.Forall_cons; [by left |].
  apply List.Forall_cons; [by right |]. apply List.Forall_nil.
Defined.

(** X12: for any evaluator, [best_answer] is the identifier of the first
    result, and no result has a higher overall score than that one. *)
Theorem best_answer_has_highest_score evaluator request w resp w' :
  compare_answers_with evaluator request w = (Ok resp, w') ->
  exists best rest,
    ComparisonResponse.results resp = best :: rest /\
    ComparisonResponse.best_answer resp = EvaluationResult.answer_id best /\
    Forall (fun r => EvaluationResult.overall_score r
                     <= EvaluationResult.overall_score best)
           (ComparisonResponse.results resp).
Proof.
  intros Hrun.
  apply compare_answers_with_Ok in Hrun
    as (evaluated & HF & Hne & Hres & Hbest & _).
  destruct (ranked_spec _ _ _ HF) as (σ & _ & _ & Hpos & Hord).
  rewrite Hres. destruct (ranked evaluated) as [|best rest] eqn:E.
  { apply (f_equal length) in E. rewrite ranked_length in E.
    by destruct evaluated. }
  exists best, rest. split; [done |]. simpl in Hbest.
  split; [by injection Hbest |].
  apply Forall_forall. intros r [k Hk]%list_elem_of_lookup.
  destruct k as [|k]; [simpl in Hk; injection Hk as <-; apply Qle_refl |].
  destruct (Hpos 0%nat best eq_refl) as (i0 & _ & _ & Hi0 & _).
  destruct (Hpos (S k) r Hk) as (i1 & _ & _ & Hi1 & _).
  destruct (Hord 0%nat (S k) best r i0 i1) as [Hle _]; try done. lia.
Qed.

Lemma best_answer_has_highest_score_witness :
  exists resp w',
    compare_answers_with evaluate_answer_with_ai gravity_request world0
      = (Ok resp, w') /\
    exists best rest,
      ComparisonResponse.results resp = best :: rest /\
      ComparisonResponse.best_answer resp = EvaluationResult.answer_id best /\
      Forall (fun r => EvaluationResult.overall_score r
                       <= EvaluationResult.overall_score best)
             (ComparisonResponse.results resp).
Proof.
  sample_run_with evaluate_answer_with_ai gravity_request world0 resp w' E.
  exact (best_answer_has_highest_score evaluate_answer_with_ai
           gravity_request world0 resp w' E).
Defined.

(** ** The informational routes *)

(** X13: what [/info] says of the service is what [/compare] returns: its
    [supported_archetypes] is the number of archetype scores of every
    result and the number of entries of the archetype summary, and its
    [ranking_confidence] is the confidence of every result and the
    [ranking_confidence] of the confidence summary. *)
Theorem system_info_matches_the_handler request w resp w' :
  compare_answers request w = (Ok resp, w') ->
  exists metrics,
    json_get "performance_metrics" get_system_info = Some metrics /\
    Forall (fun r =>
              json_get "supported_archetypes" metrics
              = Some (JInt (Z.of_nat
                              (length (EvaluationResult.archetype_scores r)))) /\
              json_get "ranking_confidence" metrics
              = Some (JFloat (EvaluationResult.confidence r)))
           (ComparisonResponse.results resp) /\
    json_get "supported_archetypes" metrics
      = Some (JInt (Z.of_nat (size (ComparisonResponse.archetype_summary resp)))) /\
    json_get "ranking_confidence" metrics
      = JFloat <$> ComparisonResponse.confidence_summary resp
                     !! "ranking_confidence".
Proof.
  intros Hrun. eexists. split; [reflexivity |].
  split; [| split].
  - apply Forall_forall. intros r Hr.
    destruct (results_from_draws _ _ _ _ _ Hrun Hr)
      as (i & a & _ & _ & _ & Hc & Hsc & _).
    by rewrite Hsc, Hc.
  - assert (dom (ComparisonResponse.archetype_summary resp)
            = list_to_set archetypes) as Hd.
    { apply set_eq. intros a.
      rewrite elem_of_dom, (archetype_summary_keys _ _ _ _ a Hrun).
      by rewrite elem_of_list_to_set. }
    rewrite <- size_dom, Hd. reflexivity.
  - apply compare_answers_Ok_inv in Hrun as (evaluated & _ & _ & Hresp & _).
    apply response_of_Ok in Hresp as (_ & _ & _ & _ & _ & _ & ->).
    reflexivity.
Qed.

Lemma system_info_matches_the_handler_witness :
  exists resp w',
    compare_answers gravity_request world0 = (Ok resp, w') /\
    exists metrics,
      json_get "performance_metrics" get_system_info = Some metrics /\
      json_get "supported_archetypes" metrics
      = Some (JInt (Z.of_nat
                      (size (ComparisonResponse.archetype_summary resp)))).
Proof.
  sample_run gravity_request world0 resp w' E.
  destruct (system_info_matches_the_handler gravity_request world0 resp w' E)
    as (metrics & Hm & _ & Hsize & _).
  exists metrics. split; [exact Hm | exact Hsize].
Defined.

(** X14: the archetypes [/stats] lists as the most common are archetypes
    [/compare] scores: every result has a score for each of them, and the
    archetype summary has an entry for each. *)
Theorem usage_stats_archetypes_are_scored request w resp w' :
  compare_answers request w = (Ok resp, w') ->
  exists names,
    json_get "most_common_archetypes" get_usage_stats
      = Some (JList (JString <$> names)) /\
    Forall (fun name =>
              Forall (fun r => possesses r name)
                     (ComparisonResponse.results resp) /\
              is_Some (ComparisonResponse.archetype_summary resp !! name))
           names.
Proof.
  intros Hrun. exists ["clarity"; "accuracy"; "completeness"].
  split; [reflexivity |].
  assert (forall name, name ∈ archetypes ->
            Forall (fun r => possesses r name)
                   (ComparisonResponse.results resp) /\
            is_Some (ComparisonResponse.archetype_summary resp !! name)) as H.
  { intros name Ha. split.
    - apply Forall_forall. intros r Hr. unfold possesses.
      by rewrite (compare_answers_archetypes _ _ _ _ r Hrun Hr).
    - by apply (archetype_summary_keys _ _ _ _ name Hrun). }
  repeat (apply List.Forall_cons;
          [apply H; unfold archetypes; repeat constructor |]).
  apply List.Forall_nil.
Qed.

Lemma usage_stats_archetypes_are_scored_witness :
  exists resp w',
    compare_answers gravity_request world0 = (Ok resp, w') /\
    exists names,
      json_get "most_common_archetypes" get_usage_stats
        = Some (JList (JString <$> names)) /\
      Forall (fun name =>
                Forall (fun r => possesses r name)
                       (ComparisonResponse.results resp))
             names.
Proof.
  sample_run gravity_request world0 resp w' E.
  destruct (usage_stats_archetypes_are_scored gravity_request world0 resp w' E)
    as (names & Hn & H).
  exists names. split; [exact Hn |].
  eapply Forall_impl; [exact H |]. by intros name [Hr _].
Defined.
